(** * Exploratory data analysis of the article / user-interaction data sets

    A shallow embedding of [src/data/exploratory_data_anaysis.py]: the
    loader with its e-mail encoder, the per-user interaction statistics
    with the histogram bins, and the article statistics with the left join
    and the popularity ranking.

    The script works on pandas data frames.  The frame operations it calls
    ([drop], [astype], [groupby(..).count], [drop_duplicates], [set_index],
    [join], [value_counts], [unique], [median], [mean], [max]) and the two
    numpy operations ([sort], [histogram]) are written out below as list
    functions; the four functions of the script are then transcribed line
    by line over a store of frame objects, because the script updates its
    frames in place.

    The input of the script is the content of its two CSV files, here the
    two frames [read_csv] parses out of them.  What the script prints is
    returned as a record, and so is what it draws; the directory and the
    image file it writes are left out. *)

From Stdlib Require Import ZArith QArith_base Lia.
From stdpp Require Import gmap strings list fin_maps sorting.

Local Open Scope string_scope.
Local Open Scope list_scope.
Local Open Scope Z_scope.
Local Open Scope nat_scope.

(** ** Cells, series and frames *)

(** A cell of a frame read from a CSV file: a whole number, a string, or
    the missing-value marker.  The article ids of the interaction log are
    written [1430.0] in the file; they are whole numbers and are kept here
    as the integer they denote.  The whole numbers of a column are 64-bit
    integers, signed or unsigned, or floats of that size. *)
Inductive value : Type :=
  | VInt (z : Z)
  | VStr (s : string)
  | VNaN.

#[global] Instance value_eq_dec : EqDecision value.
Proof. solve_decision. Defined.

Definition value_to_sum (v : value) : Z + string + unit :=
  match v with
  | VInt z => inl (inl z)
  | VStr s => inl (inr s)
  | VNaN => inr tt
  end.

Definition value_of_sum (s : Z + string + unit) : value :=
  match s with
  | inl (inl z) => VInt z
  | inl (inr s) => VStr s
  | inr _ => VNaN
  end.

#[global] Instance value_countable : Countable value.
Proof.
  apply (inj_countable' value_to_sum value_of_sum).
  by intros [].
Defined.

#[global] Instance value_inhabited : Inhabited value := populate VNaN.

Definition is_str (v : value) : bool :=
  match v with VStr _ => true | _ => false end.

Definition is_int (v : value) : bool :=
  match v with VInt _ => true | _ => false end.

(** A column taken out of a frame: its cells in row order. *)
Abbreviation Series := (list value).

(** A loop over a column gets Python objects, and a dictionary tells its
    keys apart by identity and by equality.  A column in which some cell
    is a string holds objects: its cells, with one marker object for all
    its missing cells.  A column without a string is a column of numbers,
    in which a missing cell is the float nan: the loop gets a new float
    object in every row, and a nan equals no other object, so every
    missing cell of such a column is a key of its own, named here by its
    row. *)
Inductive dict_key : Type :=
  | KCell (v : value)
  | KNaN (row : nat).

#[global] Instance dict_key_eq_dec : EqDecision dict_key.
Proof. solve_decision. Defined.

Definition key_to_sum (k : dict_key) : value + nat :=
  match k with
  | KCell v => inl v
  | KNaN i => inr i
  end.

Definition key_of_sum (s : value + nat) : dict_key :=
  match s with
  | inl v => KCell v
  | inr i => KNaN i
  end.

#[global] Instance dict_key_countable : Countable dict_key.
Proof.
  apply (inj_countable' key_to_sum key_of_sum).
  by intros [].
Defined.

#[global] Instance dict_key_inhabited : Inhabited dict_key := populate (KCell VNaN).

(** A row is a record from column label to cell; a frame is its column
    labels, in order, and its rows, in order.  The row labels (the frame's
    index) are left out: the script never reads them. *)
Abbreviation Row := (gmap string value).

Record DataFrame : Type := mkDataFrame {
  columns : list string;
  rows : list Row;
}.

(** The cell of row [r] under column [c]; a row without that cell reads as
    missing. *)
Definition cell (c : string) (r : Row) : value := default VNaN (r !! c).

(** ** Errors

    The exceptions the frame operations raise; none is caught, so the
    first one ends the run.  [Unbound] is for a variable that names no
    object, which no run of the script meets. *)

Inductive error : Type :=
  | KeyError (label : string)
  | AttributeError (name : string)
  | ValueError
  | IndexError
  | Unbound (l : nat).

Abbreviation result := (sum error).

Definition rbind {A B} (m : result A) (f : A → result B) : result B :=
  match m with
  | inl e => inl e
  | inr a => f a
  end.

Definition is_ok {A} (m : result A) : bool :=
  match m with inr _ => true | inl _ => false end.

Declare Scope result_scope.
Delimit Scope result_scope with result.
Notation "x ← m ; k" := (rbind m (λ x, k))
  (at level 20, m at level 100, k at level 200, only parsing) : result_scope.

(** [traverse f l] applies a fallible [f] to the elements in order and
    stops at the first failure. *)
Fixpoint traverse {A B} (f : A → result B) (l : list A) : result (list B) :=
  match l with
  | [] => inr []
  | x :: l' => (y ← f x; ys ← traverse f l'; inr (y :: ys))%result
  end.

(** ** Generic list operations behind the frame operations *)

(** Keep the elements whose key has not occurred before (among [seen] or
    earlier in the list): first occurrences, in order. *)
Fixpoint keep_first {A K} `{EqDecision K} (key : A → K) (seen : list K)
    (l : list A) : list A :=
  match l with
  | [] => []
  | x :: l' =>
      if decide (key x ∈ seen) then keep_first key seen l'
      else x :: keep_first key (key x :: seen) l'
  end.

(** Number of occurrences of [x]. *)
Definition occurrences {A} `{EqDecision A} (x : A) (l : list A) : nat :=
  length (filter (λ y, y = x) l).

(** The order in which [groupby] lists its keys: integers by value, then
    strings, then the missing marker. *)
Definition value_le (a b : value) : Prop :=
  match a, b with
  | VInt x, VInt y => (x ≤ y)%Z
  | VInt _, _ => True
  | VStr _, VInt _ => False
  | VStr s, VStr t => String.le s t
  | VStr _, VNaN => True
  | VNaN, VNaN => True
  | VNaN, _ => False
  end.

#[global] Instance value_le_dec (a b : value) : Decision (value_le a b).
Proof. destruct a, b; simpl; apply _. Defined.

(** Stable sort of a counted series, largest count first: an entry is put
    in front of the entries whose count is not larger, so entries with
    equal counts keep the order in which they come. *)
Fixpoint insert_desc {A} (x : A * nat) (l : list (A * nat)) : list (A * nat) :=
  match l with
  | [] => [x]
  | y :: l' => if decide (y.2 ≤ x.2) then x :: l else y :: insert_desc x l'
  end.

Definition sort_desc {A} (l : list (A * nat)) : list (A * nat) :=
  foldr insert_desc [] l.

(** ** The pandas operations the script calls *)

Module pandas.

(** [df.drop(columns=[c], inplace=True)]: the frame without column [c];
    a label that is not a column raises [KeyError]. *)
Definition drop (c : string) (df : DataFrame) : result DataFrame :=
  if decide (c ∈ columns df)
  then inr {| columns := filter (λ c', c' ≠ c) (columns df);
              rows := delete c <$> rows df |}
  else inl (KeyError c).

(** [df.c]: the column as a series; [AttributeError] when the frame has
    no such column. *)
Definition getattr (c : string) (df : DataFrame) : result Series :=
  if decide (c ∈ columns df) then inr (cell c <$> rows df)
  else inl (AttributeError c).

(** [df[c] = s] and [df.c = s] for an existing column: the column is
    overwritten, or appended as the last column when new; a sequence
    whose length is not the number of rows raises [ValueError]. *)
Definition setitem (c : string) (s : Series) (df : DataFrame)
    : result DataFrame :=
  if decide (length s = length (rows df))
  then inr {| columns := if decide (c ∈ columns df) then columns df
                         else columns df ++ [c];
              rows := zip_with (λ r v, <[c:=v]> r) (rows df) s |}
  else inl ValueError.

(** The 64-bit integer a number is stored as: two's complement, so a
    number from [2^63] on, which a column of unsigned integers can hold,
    wraps around. *)
Definition int64 (z : Z) : Z := ((z + 2 ^ 63) `mod` 2 ^ 64 - 2 ^ 63)%Z.

(** [s.astype(int)]: every cell as a 64-bit integer.  A missing cell or
    a string that is not an integer literal raises [ValueError].  The
    reading of a string as an integer, Python's [int], is a parameter. *)
Definition to_int (int_of_str : string → option Z) (v : value)
    : result value :=
  match v with
  | VInt z => inr (VInt (int64 z))
  | VStr s => match int_of_str s with
              | Some z => inr (VInt z)
              | None => inl ValueError
              end
  | VNaN => inl ValueError
  end.

Definition astype_int (int_of_str : string → option Z) (s : Series)
    : result Series :=
  traverse (to_int int_of_str) s.

(** [s.unique()]: the distinct cells in order of first appearance. *)
Definition unique {A} `{EqDecision A} (s : list A) : list A :=
  keep_first id [] s.

(** [for x in s]: the objects a loop over the column gets, as a
    dictionary tells them apart. *)
Definition iter_keys (s : Series) : list dict_key :=
  if existsb is_str s then KCell <$> s
  else imap (λ i v, match v with VNaN => KNaN i | _ => KCell v end) s.

(** [df.drop_duplicates(subset=[c])] with the default [keep='first']:
    of the rows with equal cells under [c] only the first stays. *)
Definition drop_duplicates (c : string) (df : DataFrame)
    : result DataFrame :=
  if decide (c ∈ columns df)
  then inr {| columns := columns df;
              rows := keep_first (cell c) [] (rows df) |}
  else inl (KeyError c).

(** [df.shape[0]]: the number of rows. *)
Definition shape0 (df : DataFrame) : nat := length (rows df).

(** [df.groupby(key).col.count()]: for every non-missing cell under [key],
    cells in sorted order, the number of rows with that cell whose cell
    under [col] is not missing. *)
Definition groupby_count (key col : string) (df : DataFrame)
    : result (list (value * nat)) :=
  if decide (key ∈ columns df) then
    if decide (col ∈ columns df) then
      let keys := merge_sort value_le
        (filter (λ k, k ≠ VNaN) (unique (cell key <$> rows df))) in
      inr ((λ k, (k, length (filter
              (λ r, cell key r = k ∧ cell col r ≠ VNaN) (rows df))))
           <$> keys)
    else inl (AttributeError col)
  else inl (KeyError key).

(** [s.value_counts()]: the non-missing distinct cells with their
    numbers of occurrences, most frequent first. *)
Definition value_counts (s : Series) : list (value * nat) :=
  let present := filter (λ v, v ≠ VNaN) s in
  sort_desc ((λ v, (v, occurrences v present)) <$> unique present).

(** A frame whose row labels are the cells of one of its columns, as
    [set_index] builds it: the remaining columns, and per row the label
    and the remaining cells. *)
Record IndexedFrame : Type := mkIndexedFrame {
  ix_columns : list string;
  ix_rows : list (value * Row);
}.

Definition set_index (c : string) (df : DataFrame) : result IndexedFrame :=
  if decide (c ∈ columns df)
  then inr {| ix_columns := filter (λ c', c' ≠ c) (columns df);
              ix_rows := (λ r, (cell c r, delete c r)) <$> rows df |}
  else inl (KeyError c).

(** The cells a left join gives a row without a match: every column of
    the other frame missing. *)
Definition nulls (cols : list string) : Row :=
  list_to_map ((λ c, (c, VNaN)) <$> cols).

(** The rows a left row [r] yields: one per row of [other] labelled with
    [r]'s key, or [r] with missing cells when there is none. *)
Definition join_row (other : IndexedFrame) (on : string) (r : Row)
    : list Row :=
  match filter (λ m, m.1 = cell on r) (ix_rows other) with
  | [] => [r ∪ nulls (ix_columns other)]
  | ms => (λ m, r ∪ m.2) <$> ms
  end.

(** The check a join makes on its two key columns before it matches
    them.  A column in which some cell is a string is a column of
    objects, any other column a column of numbers.  Two columns of one
    kind pass, and so does every pair with an empty column.  A column of
    numbers and a column of objects pass only when the column of objects
    has an integer among its cells; strings, with or without missing
    cells, against numbers are refused. *)
Definition keys_agree (lk rk : Series) : bool :=
  match lk, rk with
  | [], _ | _, [] => true
  | _, _ =>
      if existsb is_str lk
      then existsb is_str rk || existsb is_int lk
      else negb (existsb is_str rk) || existsb is_int rk
  end.

(** [left.join(other, on=on, how='left')]: columns of both frames, rows
    in the order of [left].  [KeyError] without the key column,
    [ValueError] when the key column and the labels of [other] fail the
    check above, and when the frames share a column label. *)
Definition join (left : DataFrame) (other : IndexedFrame) (on : string)
    : result DataFrame :=
  if decide (on ∈ columns left) then
    if keys_agree (cell on <$> rows left) (ix_rows other).*1 then
      if decide (Exists (λ c, c ∈ columns left) (ix_columns other))
      then inl ValueError
      else inr {| columns := columns left ++ ix_columns other;
                  rows := rows left ≫= join_row other on |}
    else inl ValueError
  else inl (KeyError on).

(** The number read off a statistic with [.astype(int)]: the fraction
    cut towards zero.  The statistics are floating-point numbers in the
    script; they are fractions here, exact for the counts of a table that
    fits in memory. *)
Definition astype_int_scalar (q : Q) : Z :=
  Z.quot (Qnum q) (Z.pos (Qden q)).

(** [s.median()], [s.mean()] and [s.max()] of a series of counts; of an
    empty series they are undefined. *)
Definition median (s : list nat) : option Q :=
  let sorted := merge_sort (≤) s in
  let n := length s in
  if decide (n = 0) then None
  else if Nat.even n
       then Some (Qmake (Z.of_nat (sorted !!! (n / 2 - 1) + sorted !!! (n / 2))) 2)
       else Some (Qmake (Z.of_nat (sorted !!! (n / 2))) 1).

Definition mean (s : list nat) : option Q :=
  if decide (length s = 0) then None
  else Some (Qmake (Z.of_nat (sum_list s)) (Pos.of_nat (length s))).

Definition max (s : list nat) : option Q :=
  match s with
  | [] => None
  | x :: s' => Some (Qmake (Z.of_nat (foldr Nat.max x s')) 1)
  end.

(** [x.astype(int)] on a statistic.  The statistic of an empty series is
    the plain float nan, which has no [astype]: [AttributeError]. *)
Definition scalar_astype_int (x : option Q) : result Z :=
  match x with
  | Some q => inr (astype_int_scalar q)
  | None => inl (AttributeError "astype")
  end.

End pandas.

(** ** The numpy operations the script calls *)

Module numpy.

(** [numpy.sort]: ascending. *)
Definition sort (a : list nat) : list nat := merge_sort (≤) a.

(** The bars of [numpy.histogram(a, bins=edges)], which [ax.hist] draws:
    consecutive edges bound a bin, closed on the left and open on the
    right, except the last bin, which is closed on both sides. *)
Fixpoint histogram (a : list nat) (edges : list nat) : list nat :=
  match edges with
  | lo :: (hi :: rest) as tl =>
      (match rest with
       | [] => length (filter (λ x, lo ≤ x ∧ x ≤ hi) a)
       | _ => length (filter (λ x, lo ≤ x ∧ x < hi) a)
       end) :: histogram a tl
  | _ => []
  end.

End numpy.

(** ** The store of frame objects

    The script's variables name frame objects, and [inplace=True] updates
    the object, not the variable.  A store holds the objects; a variable
    holds the position of its object in the store. *)

Abbreviation store := (list DataFrame).

Definition M (A : Type) : Type := store → result (A * store).

Definition mret {A} (a : A) : M A := λ σ, inr (a, σ).

Definition mbind {A B} (m : M A) (f : A → M B) : M B :=
  λ σ, match m σ with
       | inl e => inl e
       | inr (a, σ') => f a σ'
       end.

Declare Scope script_scope.
Delimit Scope script_scope with script.
Notation "x ← m ; k" := (mbind m (λ x, k))
  (at level 20, m at level 100, k at level 200, only parsing) : script_scope.
Notation "m ;; k" := (mbind m (λ _, k))
  (at level 100, k at level 200, right associativity, only parsing)
  : script_scope.

(** A new object holding [df]. *)
Definition new (df : DataFrame) : M nat := λ σ, inr (length σ, σ ++ [df]).

(** Compute from the object at [l], leaving it as it is. *)
Definition read {A} (l : nat) (f : DataFrame → result A) : M A :=
  λ σ, match σ !! l with
       | None => inl (Unbound l)
       | Some df => match f df with
                    | inl e => inl e
                    | inr a => inr (a, σ)
                    end
       end.

(** Update the object at [l] in place. *)
Definition inplace (l : nat) (f : DataFrame → result DataFrame) : M unit :=
  λ σ, match σ !! l with
       | None => inl (Unbound l)
       | Some df => match f df with
                    | inl e => inl e
                    | inr df' => inr (tt, <[l:=df']> σ)
                    end
       end.

(** A step that can fail and does not touch the store. *)
Definition lift {A} (m : result A) : M A :=
  λ σ, match m with
       | inl e => inl e
       | inr a => inr (a, σ)
       end.

(** ** The script *)

(** What [user_interaction_histogram] draws: the bin edges, the bar of
    every bin, and the three numbers of the text box.  The numbers are
    there in every figure that is drawn. *)
Record Figure : Type := mkFigure {
  fig_bins : list nat;
  fig_bars : list nat;
  fig_median : option Z;
  fig_mean : option Z;
  fig_maximum : option Z;
}.

(** What [user_interactions_statistics] prints, and the figure it saves.
    The numbers are there whenever the function returns. *)
Record InteractionStatistics : Type := mkInteractionStatistics {
  user_interaction_count : list (value * nat);
  median_interactions : option Z;
  mean_interactions : option Z;
  max_interactions : option Z;
  histogram : Figure;
}.

(** The local variables of [articles_statistics] at its end; the last six
    are printed. *)
Record ArticleStatistics : Type := mkArticleStatistics {
  df : DataFrame;
  article_popularity : list (value * nat);
  number_of_unique_articles : nat;
  number_of_unique_articles_with_interaction : nat;
  number_of_unique_users : nat;
  number_of_user_article_interactions : nat;
  most_viewed_article_id : value;
  most_viewed_article_views : nat;
}.

(** The state of the encoding loop of [load_data]: the next id, the
    encoder and the ids given so far. *)
Record Encoding : Type := mkEncoding {
  email_id : nat;
  email_encoder : gmap dict_key nat;
  user_ids : list nat;
}.

(** One turn of the loop [for email in interactions.email]: an e-mail that
    is not a key of the encoder gets the next id, and the id of the e-mail
    is appended. *)
Definition encode_step (st : Encoding) (email : dict_key) : Encoding :=
  let st' :=
    if decide (email_encoder st !! email = None)
    then {| email_id := S (email_id st);
            email_encoder := <[email := email_id st]> (email_encoder st);
            user_ids := user_ids st |}
    else st in
  {| email_id := email_id st';
     email_encoder := email_encoder st';
     user_ids := user_ids st' ++ [email_encoder st' !!! email] |}.

Definition encode_init : Encoding :=
  {| email_id := 0; email_encoder := ∅; user_ids := [] |}.

Definition encode_keys (emails : list dict_key) : Encoding :=
  foldl encode_step encode_init emails.

(** The loop over the e-mail column. *)
Definition encode_emails (emails : Series) : Encoding :=
  encode_keys (pandas.iter_keys emails).

(** The bin edges and the bars of the histogram: the first two lines of
    [user_interaction_histogram], which run whatever the series holds. *)
Definition histogram_bins (counts : list (value * nat)) : list nat :=
  numpy.sort (pandas.unique counts.*2).

Definition histogram_bars (counts : list (value * nat)) : list nat :=
  numpy.histogram counts.*2 (histogram_bins counts).

(** [user_interaction_histogram]: the bars are drawn first, the numbers
    of the text box come next; on an empty series the first of them
    raises [AttributeError]. *)
Definition user_interaction_histogram (counts : list (value * nat))
    : result Figure :=
  let values := counts.*2 in
  let bins := histogram_bins counts in
  let bars := histogram_bars counts in
  (mean ← pandas.scalar_astype_int (pandas.mean values);
   median ← pandas.scalar_astype_int (pandas.median values);
   maximum ← pandas.scalar_astype_int (pandas.max values);
   inr {| fig_bins := bins;
          fig_bars := bars;
          fig_mean := Some mean;
          fig_median := Some median;
          fig_maximum := Some maximum |})%result.

Section script.

(** Python's [int] on a string, used by [astype(int)]. *)
Variable int_of_str : string → option Z.

(** [load_data], from the two frames [read_csv] parses out of the files.
    It returns the two variables [articles] and [interactions]. *)
Definition load_data (FILE_ARTICLES FILE_INTERACTIONS : DataFrame)
    : M (nat * nat) :=
  (articles ← new FILE_ARTICLES;
   inplace articles (pandas.drop "Unnamed: 0");;
   interactions ← new FILE_INTERACTIONS;
   inplace interactions (pandas.drop "Unnamed: 0");;
   inplace interactions (λ d,
     (ids ← pandas.getattr "article_id" d;
      ids ← pandas.astype_int int_of_str ids;
      pandas.setitem "article_id" ids d)%result);;
   emails ← read interactions (pandas.getattr "email");
   let enc := encode_emails emails in
   inplace interactions (pandas.drop "email");;
   inplace interactions
     (pandas.setitem "user_id" ((λ n, VInt (Z.of_nat n)) <$> user_ids enc));;
   mret (articles, interactions))%script.

Definition user_interactions_statistics (df : nat)
    : M InteractionStatistics :=
  (counts ← read df (pandas.groupby_count "user_id" "article_id");
   median ← lift (pandas.scalar_astype_int (pandas.median counts.*2));
   mean ← lift (pandas.scalar_astype_int (pandas.mean counts.*2));
   max ← lift (pandas.scalar_astype_int (pandas.max counts.*2));
   figure ← lift (user_interaction_histogram counts);
   mret {| user_interaction_count := counts;
           median_interactions := Some median;
           mean_interactions := Some mean;
           max_interactions := Some max;
           histogram := figure |})%script.

(** The first row of a ranking; [IndexError] when it has none. *)
Definition first_row {A} (l : list A) : result A :=
  match l with
  | [] => inl IndexError
  | x :: _ => inr x
  end.

Definition articles_statistics (articles interactions : nat)
    : M ArticleStatistics :=
  (inplace articles (pandas.drop_duplicates "article_id");;
   other ← read articles (pandas.set_index "article_id");
   df ← read interactions (λ d, pandas.join d other "article_id");
   ids ← lift (pandas.getattr "article_id" df);
   let article_popularity := pandas.value_counts ids in
   n_articles ← read articles (λ d, inr (pandas.shape0 d));
   n_with ← lift (d ← pandas.drop_duplicates "article_id" df;
                  inr (pandas.shape0 d))%result;
   users ← read interactions (pandas.getattr "user_id");
   n_interactions ← read interactions (λ d, inr (pandas.shape0 d));
   top_id ← lift (first_row article_popularity.*1);
   top_views ← lift (first_row article_popularity.*2);
   mret {| df := df;
           article_popularity := article_popularity;
           number_of_unique_articles := n_articles;
           number_of_unique_articles_with_interaction := n_with;
           number_of_unique_users := length (pandas.unique users);
           number_of_user_article_interactions := n_interactions;
           most_viewed_article_id := top_id;
           most_viewed_article_views := top_views |})%script.

Definition exploratory_analysis (FILE_ARTICLES FILE_INTERACTIONS : DataFrame)
    : M (InteractionStatistics * ArticleStatistics) :=
  (vars ← load_data FILE_ARTICLES FILE_INTERACTIONS;
   part1 ← user_interactions_statistics vars.2;
   part2 ← articles_statistics vars.1 vars.2;
   mret (part1, part2))%script.

End script.

(** ** Derived definitions

    What the script's functions do to each object, written as functions
    of the frames, and the predicates the theorems are stated with. *)

(** The order of a ranking: the count of the first is not smaller. *)
Definition count_ge {A} (x y : A * nat) : Prop := y.2 ≤ x.2.

(** What holds of the loop's state after the e-mails [seen]: the next id
    is the number of distinct e-mails seen, the encoder gives an e-mail its
    rank among the distinct e-mails in order of first appearance, and the
    ids given are those of the encoder. *)
Record encode_inv (seen : list dict_key) (st : Encoding) : Prop := mk_encode_inv {
  inv_next : email_id st = length (pandas.unique seen);
  inv_encoder : ∀ e k,
    email_encoder st !! e = Some k ↔ pandas.unique seen !! k = Some e;
  inv_ids : user_ids st = (λ e, email_encoder st !!! e) <$> seen;
}.

(** The columns in which equal cells are equal keys for a loop: a cell
    is missing only beside a string. *)
Definition missing_is_shared (s : Series) : Prop :=
  VNaN ∈ s → existsb is_str s = true.

(** The ids of the loop as cells of the [user_id] column. *)
Definition id_cells (ids : list nat) : Series :=
  (λ n, VInt (Z.of_nat n)) <$> ids.

(** What [load_data] does to the frame of the article file. *)
Definition loaded_articles (d : DataFrame) : DataFrame :=
  {| columns := filter (λ c', c' ≠ "Unnamed: 0") (columns d);
     rows := delete "Unnamed: 0" <$> rows d |}.

(** What [load_data] does to the frame of the interaction file. *)
Definition loaded_interactions (int_of_str : string → option Z)
    (d : DataFrame) : result DataFrame :=
  (d ← pandas.drop "Unnamed: 0" d;
   d ← (ids ← pandas.getattr "article_id" d;
        ids ← pandas.astype_int int_of_str ids;
        pandas.setitem "article_id" ids d);
   emails ← pandas.getattr "email" d;
   d ← pandas.drop "email" d;
   pandas.setitem "user_id" (id_cells (user_ids (encode_emails emails))) d
  )%result.

(** What [articles_statistics] computes from the frame of the articles
    object after the in-place deduplication and the frame of the
    interactions object. *)
Definition article_statistics_of (A J : DataFrame) : result ArticleStatistics :=
  (other ← pandas.set_index "article_id" A;
   df ← pandas.join J other "article_id";
   ids ← pandas.getattr "article_id" df;
   n_with ← (d ← pandas.drop_duplicates "article_id" df;
             inr (pandas.shape0 d));
   users ← pandas.getattr "user_id" J;
   top_id ← first_row (pandas.value_counts ids).*1;
   top_views ← first_row (pandas.value_counts ids).*2;
   inr {| df := df;
          article_popularity := pandas.value_counts ids;
          number_of_unique_articles := pandas.shape0 A;
          number_of_unique_articles_with_interaction := n_with;
          number_of_unique_users := length (pandas.unique users);
          number_of_user_article_interactions := pandas.shape0 J;
          most_viewed_article_id := top_id;
          most_viewed_article_views := top_views |})%result.

(** The frames [articles_statistics] is run on: the article id column in
    both, the user id column in the interactions, no other column in
    both, and article ids that pass the check of the join, as they do
    when they are numbers in both frames. *)
Record stats_frames (A J : DataFrame) : Prop := mk_stats_frames {
  sf_articles_id : "article_id" ∈ columns A;
  sf_interactions_id : "article_id" ∈ columns J;
  sf_user_id : "user_id" ∈ columns J;
  sf_disjoint : ∀ c, c ∈ columns J → c ∈ columns A → c = "article_id";
  sf_keys : pandas.keys_agree (cell "article_id" <$> rows J)
                              (cell "article_id" <$> rows A) = true;
}.

(** ** The scenario of the specification *)

(** The two files of the scenario, each with the index column that the
    loader drops: three articles, two of them with id 1, and three
    interactions of two users. *)
Definition scenario_article (index id : Z) : Row :=
  {[ "Unnamed: 0" := VInt index; "article_id" := VInt id ]}.

Definition scenario_interaction (index : Z) (email : string) (id : Z) : Row :=
  {[ "Unnamed: 0" := VInt index; "article_id" := VInt id;
     "email" := VStr email ]}.

Definition scenario_articles : DataFrame :=
  {| columns := ["Unnamed: 0"; "article_id"];
     rows := [scenario_article 0 1; scenario_article 1 1;
              scenario_article 2 2] |}.

Definition scenario_interactions : DataFrame :=
  {| columns := ["Unnamed: 0"; "article_id"; "email"];
     rows := [scenario_interaction 0 "a@x" 1; scenario_interaction 1 "b@x" 1;
              scenario_interaction 2 "a@x" 2] |}.

(** ** Concrete inputs *)

(** A store as [load_data] leaves it: a catalog in which article 1 comes
    twice, and four interactions of two users, the last with article 3,
    which the catalog does not have. *)
Definition example_article (id : Z) (name : string) : Row :=
  {[ "article_id" := VInt id; "doc_full_name" := VStr name ]}.

Definition example_interaction (id user : Z) : Row :=
  {[ "article_id" := VInt id; "user_id" := VInt user ]}.

Definition example_articles : DataFrame :=
  {| columns := ["article_id"; "doc_full_name"];
     rows := [example_article 1 "first"; example_article 1 "first again";
              example_article 2 "second"] |}.

Definition example_interactions : DataFrame :=
  {| columns := ["article_id"; "user_id"];
     rows := [example_interaction 1 0; example_interaction 1 1;
              example_interaction 2 0; example_interaction 3 1] |}.

Definition example_store : store := [example_articles; example_interactions].

(** A catalog without duplicates, and the interactions of a single user. *)
Definition example_catalog : DataFrame :=
  {| columns := ["article_id"; "doc_full_name"];
     rows := [example_article 1 "first"; example_article 2 "second"] |}.

Definition example_single_user : DataFrame :=
  {| columns := ["article_id"; "user_id"];
     rows := [example_interaction 1 0; example_interaction 2 0;
              example_interaction 2 0] |}.

(** A file without the index column. *)
Definition example_no_index : DataFrame :=
  {| columns := ["article_id"]; rows := [] |}.

(** Files the loader fails on: an interaction file without the e-mail
    column, one without the article id column, and one in which an
    interaction has no article id; and an interaction file without a
    row. *)
Definition example_log_without_email : DataFrame :=
  {| columns := ["Unnamed: 0"; "article_id"];
     rows := [{[ "Unnamed: 0" := VInt 0; "article_id" := VInt 1 ]}] |}.

Definition example_log_without_article_id : DataFrame :=
  {| columns := ["Unnamed: 0"; "email"];
     rows := [{[ "Unnamed: 0" := VInt 0; "email" := VStr "a@x" ]}] |}.


Definition example_empty_log : DataFrame :=
  {| columns := ["Unnamed: 0"; "article_id"; "email"]; rows := [] |}.

(** An interaction file in which no row has an e-mail: the column is read
    as a column of numbers, all of them missing. *)
Definition example_nameless_interaction (index id : Z) : Row :=
  {[ "Unnamed: 0" := VInt index; "article_id" := VInt id; "email" := VNaN ]}.

Definition example_log_without_emails : DataFrame :=
  {| columns := ["Unnamed: 0"; "article_id"; "email"];
     rows := [example_nameless_interaction 0 1;
              example_nameless_interaction 1 1;
              example_nameless_interaction 2 2] |}.

(** Frames [articles_statistics] fails on: a catalog without the article
    id column, a catalog whose article ids are strings, interactions
    without the article id column, interactions that share a further
    column with the catalog, and interactions without a row. *)
Definition example_catalog_without_id : DataFrame :=
  {| columns := ["doc_full_name"]; rows := [] |}.

Definition example_string_catalog : DataFrame :=
  {| columns := ["article_id"; "doc_full_name"];
     rows := [{[ "article_id" := VStr "a1";
                 "doc_full_name" := VStr "first" ]}] |}.

Definition example_users_only : DataFrame :=
  {| columns := ["user_id"]; rows := [] |}.

Definition example_titled_interactions : DataFrame :=
  {| columns := ["article_id"; "user_id"; "doc_full_name"]; rows := [] |}.

Definition example_no_interactions : DataFrame :=
  {| columns := ["article_id"; "user_id"]; rows := [] |}.


(** * Properties *)

(** ** First occurrences *)

Section keep_first.
Context {A K : Type} `{EqDecision K} (key : A → K).

Lemma keep_first_elem_of seen l x :
  x ∈ keep_first key seen l → x ∈ l ∧ key x ∉ seen.
Proof.
  revert seen. induction l as [|y l IH]; intros seen; simpl.
  - by intros ?%elem_of_nil.
  - case_decide as Hy.
    + intros [? ?]%IH. split; [by right|done].
    + intros [->|Hx]%elem_of_cons; [split; [by left|done]|].
      apply IH in Hx as [? Hs]. split; [by right|].
      intros ?. apply Hs. by right.
Qed.

Lemma keep_first_keys seen l :
  key <$> keep_first key seen l = keep_first id seen (key <$> l).
Proof.
  revert seen. induction l as [|y l IH]; intros seen; simpl; [done|].
  case_decide; simpl; by rewrite IH.
Qed.

(** A list whose keys are all new and pairwise different is kept whole. *)
Lemma keep_first_NoDup seen l :
  NoDup (key <$> l) → (∀ x, x ∈ l → key x ∉ seen) →
  keep_first key seen l = l.
Proof.
  revert seen. induction l as [|y l IH]; intros seen Hnd Hs; simpl; [done|].
  apply NoDup_cons in Hnd as [Hy Hnd].
  rewrite decide_False by (apply Hs; by left).
  f_equal. apply IH; [done|].
  intros x Hx [Heq|?]%elem_of_cons; [|by eapply Hs; [right|]].
  apply Hy. rewrite <- Heq. apply list_elem_of_fmap. eauto.
Qed.

Lemma keep_first_snoc seen l x :
  keep_first key seen (l ++ [x]) =
  keep_first key seen l ++
    (if decide (key x ∈ seen ∨ key x ∈ key <$> l) then [] else [x]).
Proof.
  revert seen. induction l as [|y l IH]; intros seen.
  - simpl. destruct (decide (key x ∈ seen)) as [H1|H1].
    + rewrite decide_True by (by left). done.
    + rewrite decide_False; [done|]. by intros [?|?%elem_of_nil].
  - rewrite fmap_cons. simpl.
    destruct (decide (key y ∈ seen)) as [Hy|Hy]; rewrite IH; simpl.
    + f_equal. apply decide_ext. rewrite elem_of_cons.
      split; [intros [?|?]; auto|].
      intros [?|[->|?]]; auto.
    + f_equal. f_equal. apply decide_ext. rewrite !elem_of_cons.
      split; [intros [[->|?]|?]; auto|].
      intros [?|[->|?]]; auto.
Qed.
End keep_first.

Section unique.
Context {A : Type} `{EqDecision A}.
Implicit Types l : list A.

Lemma keep_first_id_elem_of (seen : list A) l x :
  x ∈ keep_first id seen l ↔ x ∈ l ∧ x ∉ seen.
Proof.
  split; [apply (keep_first_elem_of id)|].
  revert seen. induction l as [|y l IH]; intros seen [Hx Hs]; simpl.
  - by apply elem_of_nil in Hx.
  - apply elem_of_cons in Hx as [->|Hx].
    + rewrite decide_False by done. by left.
    + case_decide; [by apply IH|].
      destruct (decide (x = y)) as [->|Hne]; [by left|].
      right. apply IH. split; [done|]. by intros [?|?]%elem_of_cons.
Qed.

Lemma keep_first_id_NoDup (seen : list A) l : NoDup (keep_first id seen l).
Proof.
  revert seen. induction l as [|y l IH]; intros seen; simpl; [constructor|].
  case_decide; [done|]. apply NoDup_cons. split; [|done].
  intros [_ Hy]%keep_first_id_elem_of. apply Hy. by left.
Qed.

Lemma unique_elem_of l x : x ∈ pandas.unique l ↔ x ∈ l.
Proof.
  unfold pandas.unique. rewrite keep_first_id_elem_of.
  split; [by intros [? _]|]. intros ?. split; [done|]. by intros ?%elem_of_nil.
Qed.

Lemma unique_NoDup l : NoDup (pandas.unique l).
Proof. apply keep_first_id_NoDup. Qed.

Lemma unique_snoc l x :
  pandas.unique (l ++ [x]) =
  pandas.unique l ++ (if decide (x ∈ l) then [] else [x]).
Proof.
  unfold pandas.unique. rewrite keep_first_snoc. f_equal.
  apply decide_ext. rewrite list_fmap_id. unfold id.
  split; [by intros [?%elem_of_nil|?]|auto].
Qed.

Lemma unique_NoDup_id l : NoDup l → pandas.unique l = l.
Proof.
  intros Hnd. apply keep_first_NoDup.
  - by rewrite list_fmap_id.
  - intros ? _ ?%elem_of_nil. done.
Qed.

End unique.

(** The number of distinct elements, as a set counts them. *)
Lemma unique_length `{Countable A} (l : list A) :
  length (pandas.unique l) = size (list_to_set (C:=gset A) l).
Proof.
  rewrite <- (size_list_to_set (C:=gset A) _ (unique_NoDup l)).
  f_equal. apply set_eq. intros x.
  by rewrite !elem_of_list_to_set, unique_elem_of.
Qed.
(** ** The descending sort and the ranking *)

Section sort_desc.
Context {A : Type}.
Implicit Types l : list (A * nat).

Lemma insert_desc_Permutation x l : insert_desc x l ≡ₚ x :: l.
Proof.
  induction l as [|y l IH]; simpl; [done|].
  case_decide; [done|]. rewrite IH. apply Permutation_swap.
Qed.

Lemma sort_desc_Permutation l : sort_desc l ≡ₚ l.
Proof.
  induction l as [|x l IH]; simpl; [done|].
  fold (sort_desc l). by rewrite insert_desc_Permutation, IH.
Qed.

Lemma insert_desc_sorted x l :
  StronglySorted count_ge l → StronglySorted count_ge (insert_desc x l).
Proof.
  induction 1 as [|y l Hl IH Hy]; simpl.
  - repeat constructor.
  - case_decide as Hxy.
    + constructor; [by constructor|].
      constructor; [done|].
      eapply Forall_impl; [exact Hy|]. unfold count_ge. intros; lia.
    + constructor; [done|].
      rewrite insert_desc_Permutation. constructor; [|done].
      unfold count_ge. lia.
Qed.

Lemma sort_desc_sorted l : StronglySorted count_ge (sort_desc l).
Proof.
  induction l as [|x l IH]; simpl; [constructor|].
  by apply insert_desc_sorted.
Qed.

(** The first row of the ranking has the largest count. *)
Lemma sort_desc_head_max l x :
  head (sort_desc l) = Some x → x ∈ l ∧ ∀ y, y ∈ l → y.2 ≤ x.2.
Proof.
  intros Hhd. pose proof (sort_desc_sorted l) as Hs.
  pose proof (sort_desc_Permutation l) as Hp.
  destruct (sort_desc l) as [|z s]; simplify_eq/=.
  apply StronglySorted_inv in Hs as [_ Hs]. split.
  - rewrite <- Hp. by left.
  - intros y Hy. rewrite <- Hp in Hy.
    apply elem_of_cons in Hy as [->|Hy]; [done|].
    rewrite Forall_forall in Hs. by apply Hs.
Qed.

Lemma sort_desc_nil_inv l : sort_desc l = [] → l = [].
Proof.
  intros Hl. apply Permutation_nil_r. by rewrite <- Hl, sort_desc_Permutation.
Qed.
End sort_desc.

Section occurrences.
Context {A : Type} `{EqDecision A}.
Implicit Types l : list A.

Lemma occurrences_pos x l : x ∈ l → 0 < occurrences x l.
Proof.
  intros Hx. unfold occurrences.
  assert (x ∈ filter (λ y, y = x) l) as Hf by (by apply list_elem_of_filter).
  destruct (filter _ l); [by apply elem_of_nil in Hf|simpl; lia].
Qed.

Lemma occurrences_filter (P : A → Prop) `{∀ y, Decision (P y)} x l :
  P x → occurrences x (filter P l) = occurrences x l.
Proof.
  intros HP. unfold occurrences. rewrite list_filter_filter.
  f_equal. apply list_filter_iff. intros y. split; [by intros [? ?]|].
  intros ->. done.
Qed.

Lemma occurrences_fmap {B} (f : B → A) x (l : list B) :
  occurrences x (f <$> l) = length (filter (λ b, f b = x) l).
Proof.
  unfold occurrences. induction l as [|b l IH]; [done|].
  rewrite fmap_cons, !filter_cons. repeat case_decide; simpl; try done.
  by rewrite IH.
Qed.
End occurrences.

(** The ranking lists every non-missing cell of the series once, with the
    number of its occurrences. *)
Lemma value_counts_elem_of (s : Series) v n :
  (v, n) ∈ pandas.value_counts s ↔ v ∈ s ∧ v ≠ VNaN ∧ n = occurrences v s.
Proof.
  unfold pandas.value_counts. rewrite sort_desc_Permutation.
  rewrite list_elem_of_fmap. split.
  - intros (w & [= -> ->] & Hw). rewrite unique_elem_of in Hw.
    apply list_elem_of_filter in Hw as [Hw ?].
    split_and!; [done..|]. by apply (occurrences_filter (λ v, v ≠ VNaN)).
  - intros (Hv & Hn & ->). exists v. split.
    + by rewrite (occurrences_filter (λ v, v ≠ VNaN)).
    + rewrite unique_elem_of. by apply list_elem_of_filter.
Qed.

Lemma value_counts_nil_inv (s : Series) :
  pandas.value_counts s = [] → ∀ v, v ∈ s → v = VNaN.
Proof.
  intros Hnil v Hv. destruct (decide (v = VNaN)) as [|Hn]; [done|].
  assert ((v, occurrences v s) ∈ pandas.value_counts s) as Hin
    by (by apply value_counts_elem_of).
  rewrite Hnil in Hin. by apply elem_of_nil in Hin.
Qed.

(** Distinct elements under a map that is injective on the list. *)
Lemma keep_first_fmap_inj {A B} `{EqDecision A, EqDecision B} (f : A → B)
    (seen l : list A) :
  (∀ x y, x ∈ seen ++ l → y ∈ seen ++ l → f x = f y → x = y) →
  keep_first id (f <$> seen) (f <$> l) = f <$> keep_first id seen l.
Proof.
  revert seen. induction l as [|a l IH]; intros seen Hinj; [done|].
  rewrite fmap_cons. simpl.
  assert (∀ x, x ∈ seen ++ l → x ∈ seen ++ a :: l) as Hsub.
  { intros x. rewrite !elem_of_app, elem_of_cons. tauto. }
  assert (a ∈ seen ++ a :: l) as Hain.
  { rewrite elem_of_app, elem_of_cons. tauto. }
  destruct (decide (a ∈ seen)) as [Ha|Ha].
  - rewrite decide_True by (apply list_elem_of_fmap; eauto).
    apply IH. intros x y Hx Hy. apply Hinj; auto.
  - rewrite decide_False.
    + rewrite fmap_cons. f_equal. rewrite <- fmap_cons. apply IH.
      intros x y Hx Hy. apply Hinj.
      * revert Hx. rewrite !elem_of_app, !elem_of_cons. tauto.
      * revert Hy. rewrite !elem_of_app, !elem_of_cons. tauto.
    + intros (b & Hfb & Hb)%list_elem_of_fmap. apply Ha.
      rewrite (Hinj a b); [done|done| |done].
      rewrite elem_of_app. by left.
Qed.

Lemma unique_fmap_inj {A B} `{EqDecision A, EqDecision B} (f : A → B)
    (l : list A) :
  (∀ x y, x ∈ l → y ∈ l → f x = f y → x = y) →
  pandas.unique (f <$> l) = f <$> pandas.unique l.
Proof. intros Hinj. by apply (keep_first_fmap_inj f []). Qed.

(** ** The encoding loop of [load_data] *)

Lemma encode_init_inv : encode_inv [] encode_init.
Proof. split; simpl; [done| |done]. intros e k. by rewrite lookup_empty. Qed.

Lemma encode_step_inv seen st email :
  encode_inv seen st → encode_inv (seen ++ [email]) (encode_step st email).
Proof.
  intros [Hnext Henc Hids]. unfold encode_step.
  destruct (decide (email_encoder st !! email = None)) as [Hnew|Hold].
  - assert (email ∉ seen) as Hns.
    { intros Hin. rewrite <- unique_elem_of in Hin.
      apply list_elem_of_lookup in Hin as [k Hk].
      apply Henc in Hk. congruence. }
    split; simpl; rewrite ?unique_snoc, ?decide_False by done.
    + rewrite length_app. simpl. lia.
    + intros e k. destruct (decide (e = email)) as [->|Hne].
      * rewrite lookup_insert_eq. rewrite lookup_snoc_Some. split.
        -- intros [= <-]. right. by split.
        -- intros [[_ Hk]|[-> _]]; [|by rewrite Hnext].
           exfalso. apply Hns. rewrite <- unique_elem_of.
           apply list_elem_of_lookup. eauto.
      * rewrite lookup_insert_ne by done. rewrite Henc, lookup_snoc_Some.
        split; [intros Hk; left; split; [by eapply lookup_lt_Some|done]|].
        intros [[_ Hk]|[_ ?]]; [done|congruence].
    + rewrite fmap_app. simpl. f_equal.
      rewrite Hids. apply list_fmap_ext. intros i e He.
      rewrite !lookup_total_alt, lookup_insert_ne; [done|].
      intros <-. apply Hns. apply list_elem_of_lookup. eauto.
  - assert (email ∈ seen) as Hs.
    { destruct (email_encoder st !! email) as [k|] eqn:Hk; [|done].
      apply Henc in Hk. rewrite <- unique_elem_of.
      apply list_elem_of_lookup. eauto. }
    split; simpl; rewrite ?unique_snoc, ?decide_True, ?app_nil_r by done;
      [done..|].
    rewrite fmap_app. simpl. by rewrite Hids.
Qed.

Lemma encode_keys_snoc emails email :
  encode_keys (emails ++ [email]) = encode_step (encode_keys emails) email.
Proof. unfold encode_keys. apply foldl_snoc. Qed.

Lemma encode_keys_inv emails : encode_inv emails (encode_keys emails).
Proof.
  induction emails as [|email emails IH] using rev_ind.
  - apply encode_init_inv.
  - rewrite encode_keys_snoc. by apply encode_step_inv.
Qed.

(** An id, once in the encoder, stays: no turn of the loop overwrites or
    removes an entry. *)
Lemma encode_step_write_once st email e k :
  email_encoder st !! e = Some k →
  email_encoder (encode_step st email) !! e = Some k.
Proof.
  intros He. unfold encode_step. case_decide as Hnew; simpl; [|done].
  rewrite lookup_insert_ne; [done|]. intros ->. congruence.
Qed.

Lemma encode_write_once st emails e k :
  email_encoder st !! e = Some k →
  email_encoder (foldl encode_step st emails) !! e = Some k.
Proof.
  revert st. induction emails as [|email emails IH]; intros st He; [done|].
  simpl. apply IH. by apply encode_step_write_once.
Qed.

Lemma encode_keys_ids_length emails :
  length (user_ids (encode_keys emails)) = length emails.
Proof.
  destruct (encode_keys_inv emails) as [_ _ ->]. by rewrite length_fmap.
Qed.

Lemma encode_keys_ids_lookup emails n e :
  emails !! n = Some e →
  ∃ k, user_ids (encode_keys emails) !! n = Some k ∧
       email_encoder (encode_keys emails) !! e = Some k ∧
       pandas.unique emails !! k = Some e.
Proof.
  intros Hn. destruct (encode_keys_inv emails) as [_ Henc Hids].
  assert (e ∈ pandas.unique emails) as Hin.
  { rewrite unique_elem_of. apply list_elem_of_lookup. eauto. }
  apply list_elem_of_lookup in Hin as [k Hk]. exists k.
  pose proof Hk as Hk'. apply Henc in Hk'. split_and!; [|done..].
  rewrite Hids, list_lookup_fmap, Hn. simpl.
  by rewrite (lookup_total_correct _ _ _ Hk').
Qed.

Lemma encode_keys_encoder_inj emails e1 e2 k :
  email_encoder (encode_keys emails) !! e1 = Some k →
  email_encoder (encode_keys emails) !! e2 = Some k → e1 = e2.
Proof.
  destruct (encode_keys_inv emails) as [_ Henc _].
  rewrite !Henc. congruence.
Qed.

(** As many distinct ids as distinct keys. *)
Lemma encode_keys_ids_unique emails :
  pandas.unique (user_ids (encode_keys emails)) =
  (λ e, email_encoder (encode_keys emails) !!! e) <$> pandas.unique emails.
Proof.
  destruct (encode_keys_inv emails) as [_ Henc Hids].
  rewrite Hids at 1. apply unique_fmap_inj.
  intros x y Hx Hy Hxy.
  apply list_elem_of_lookup in Hx as [i Hi], Hy as [j Hj].
  apply encode_keys_ids_lookup in Hi as (k1 & _ & H1 & _).
  apply encode_keys_ids_lookup in Hj as (k2 & _ & H2 & _).
  rewrite (lookup_total_correct _ _ _ H1), (lookup_total_correct _ _ _ H2) in Hxy.
  subst. by eapply encode_keys_encoder_inj.
Qed.

(** ** The keys of a column *)

Lemma iter_keys_length s : length (pandas.iter_keys s) = length s.
Proof.
  unfold pandas.iter_keys. destruct (existsb is_str s).
  - by rewrite length_fmap.
  - by rewrite length_imap.
Qed.

(** Where a cell is missing only beside a string, the keys are the
    cells. *)
Lemma iter_keys_shared s :
  missing_is_shared s → pandas.iter_keys s = KCell <$> s.
Proof.
  unfold pandas.iter_keys, missing_is_shared. intros Hs.
  destruct (existsb is_str s) eqn:Estr; [done|].
  apply list_eq. intros i. rewrite list_lookup_imap, list_lookup_fmap.
  destruct (s !! i) as [v|] eqn:Hi; simpl; [|done].
  destruct v; try done.
  assert (VNaN ∈ s) as Hin by (apply list_elem_of_lookup; eauto).
  by specialize (Hs Hin).
Qed.

(** In a column without a string a missing cell is the key of its row,
    and any other cell is its own key. *)
Lemma iter_keys_numbers s :
  existsb is_str s = false →
  pandas.iter_keys s =
  imap (λ i v, match v with VNaN => KNaN i | _ => KCell v end) s.
Proof. unfold pandas.iter_keys. by intros ->. Qed.

Lemma unique_cells (s : Series) :
  pandas.unique (KCell <$> s) = KCell <$> pandas.unique s.
Proof. apply unique_fmap_inj. by intros x y _ _ [= ->]. Qed.

Lemma encode_ids_length emails :
  length (user_ids (encode_emails emails)) = length emails.
Proof.
  unfold encode_emails. by rewrite encode_keys_ids_length, iter_keys_length.
Qed.

Lemma encode_ids_lookup emails n e :
  missing_is_shared emails →
  emails !! n = Some e →
  ∃ k, user_ids (encode_emails emails) !! n = Some k ∧
       email_encoder (encode_emails emails) !! KCell e = Some k ∧
       pandas.unique emails !! k = Some e.
Proof.
  intros Hs Hn. unfold encode_emails. rewrite (iter_keys_shared _ Hs).
  destruct (encode_keys_ids_lookup (KCell <$> emails) n (KCell e))
    as (k & Hk & Henc & Hu).
  { by rewrite list_lookup_fmap, Hn. }
  exists k. split_and!; [done..|].
  rewrite unique_cells, list_lookup_fmap in Hu.
  destruct (pandas.unique emails !! k); by simplify_eq/=.
Qed.

(** As many distinct ids as distinct e-mails. *)
Lemma encode_ids_unique emails :
  missing_is_shared emails →
  pandas.unique (user_ids (encode_emails emails)) =
  (λ e, email_encoder (encode_emails emails) !!! KCell e)
    <$> pandas.unique emails.
Proof.
  intros Hs. unfold encode_emails. rewrite (iter_keys_shared _ Hs).
  by rewrite encode_keys_ids_unique, unique_cells, <- list_fmap_compose.
Qed.

(** ** Cells under the row updates *)

Lemma cell_delete_ne c c' (r : Row) : c ≠ c' → cell c (delete c' r) = cell c r.
Proof. intros ?. unfold cell. by rewrite lookup_delete_ne. Qed.

Lemma cell_insert_eq c v (r : Row) : cell c (<[c:=v]> r) = v.
Proof. unfold cell. by rewrite lookup_insert_eq. Qed.

Lemma cell_insert_ne c c' v (r : Row) :
  c ≠ c' → cell c (<[c':=v]> r) = cell c r.
Proof. intros ?. unfold cell. by rewrite lookup_insert_ne. Qed.

Lemma column_set_eq c (rs : list Row) (s : Series) :
  length s = length rs →
  cell c <$> zip_with (λ r v, <[c:=v]> r) rs s = s.
Proof.
  revert s. induction rs as [|r rs IH]; intros [|v s] Hlen;
    simplify_eq/=; [done|].
  by rewrite cell_insert_eq, IH.
Qed.

Lemma column_set_ne c c' (rs : list Row) (s : Series) :
  c ≠ c' → length s = length rs →
  cell c <$> zip_with (λ r v, <[c':=v]> r) rs s = cell c <$> rs.
Proof.
  intros Hne. revert s. induction rs as [|r rs IH]; intros [|v s] Hlen;
    simplify_eq/=; [done|].
  by rewrite cell_insert_ne, IH.
Qed.

Lemma column_delete_ne c c' (rs : list Row) :
  c ≠ c' → cell c <$> (delete c' <$> rs) = cell c <$> rs.
Proof.
  intros Hne. rewrite <- list_fmap_compose. apply list_fmap_ext.
  intros i r _. simpl. by apply cell_delete_ne.
Qed.

Lemma traverse_length {A B} (f : A → result B) l l' :
  traverse f l = inr l' → length l' = length l.
Proof.
  revert l'. induction l as [|x l IH]; intros l'; simpl.
  - by intros [= <-].
  - destruct (f x) as [e|y]; simpl; [done|].
    destruct (traverse f l) as [e|ys]; simpl; [done|].
    intros [= <-]. simpl. f_equal. by apply IH.
Qed.

Lemma traverse_Forall {A B} (f : A → result B) (P : B → Prop) l l' :
  (∀ x y, f x = inr y → P y) → traverse f l = inr l' → Forall P l'.
Proof.
  intros Hf. revert l'. induction l as [|x l IH]; intros l'; simpl.
  - intros [= <-]. constructor.
  - destruct (f x) as [e|y] eqn:Hx; simpl; [done|].
    destruct (traverse f l) as [e|ys]; simpl; [done|].
    intros [= <-]. constructor; [by eapply Hf|by apply IH].
Qed.



Lemma to_int_VInt int_of_str v w :
  pandas.to_int int_of_str v = inr w → ∃ z, w = VInt z.
Proof.
  destruct v as [z|s|]; simpl; [intros [= <-]; eauto| |done].
  destruct (int_of_str s); [intros [= <-]; eauto|done].
Qed.

(** After [astype(int)] every cell of the column is an integer. *)
Lemma astype_int_ints int_of_str (s ids : Series) :
  pandas.astype_int int_of_str s = inr ids →
  Forall (λ v, ∃ z, v = VInt z) ids.
Proof. apply traverse_Forall, to_int_VInt. Qed.

(** ** Running the script's steps on the store *)

Lemma inplace_last (f : DataFrame → result DataFrame) (σ : store) d :
  inplace (length σ) f (σ ++ [d]) =
  match f d with
  | inl e => inl e
  | inr d' => inr (tt, σ ++ [d'])
  end.
Proof.
  unfold inplace. rewrite list_lookup_middle by done.
  destruct (f d); [done|].
  rewrite insert_app_r_alt, Nat.sub_diag by done. done.
Qed.

Lemma read_last {A} (f : DataFrame → result A) (σ : store) d :
  read (length σ) f (σ ++ [d]) =
  match f d with
  | inl e => inl e
  | inr a => inr (a, σ ++ [d])
  end.
Proof. unfold read. by rewrite list_lookup_middle by done. Qed.

Lemma inplace_run l (f : DataFrame → result DataFrame) (σ : store) d :
  σ !! l = Some d →
  inplace l f σ =
  match f d with
  | inl e => inl e
  | inr d' => inr (tt, <[l:=d']> σ)
  end.
Proof. intros Hl. unfold inplace. by rewrite Hl. Qed.

Lemma read_run {A} l (f : DataFrame → result A) (σ : store) d :
  σ !! l = Some d →
  read l f σ =
  match f d with
  | inl e => inl e
  | inr a => inr (a, σ)
  end.
Proof. intros Hl. unfold read. by rewrite Hl. Qed.

(** ** [load_data], object by object *)

Section load_data.
Variable int_of_str : string → option Z.

Lemma load_data_run (FA FI : DataFrame) (σ : store) :
  load_data int_of_str FA FI σ =
  (a ← pandas.drop "Unnamed: 0" FA;
   i ← loaded_interactions int_of_str FI;
   inr ((length σ, S (length σ)), σ ++ [a; i]))%result.
Proof.
  unfold load_data, loaded_interactions, mbind, new, mret, id_cells, rbind.
  cbv beta iota. rewrite inplace_last.
  destruct (pandas.drop "Unnamed: 0" FA) as [e|a]; [done|].
  cbv beta iota. rewrite inplace_last.
  destruct (pandas.drop "Unnamed: 0" FI) as [e|d1]; [done|].
  cbv beta iota. rewrite inplace_last.
  destruct (pandas.getattr "article_id" d1) as [e|ids]; [done|].
  destruct (pandas.astype_int int_of_str ids) as [e|ids']; [done|].
  destruct (pandas.setitem "article_id" ids' d1) as [e|d2]; [done|].
  cbv beta iota. rewrite read_last.
  destruct (pandas.getattr "email" d2) as [e|emails]; [done|].
  cbv beta iota zeta. rewrite inplace_last.
  destruct (pandas.drop "email" d2) as [e|d3]; [done|].
  cbv beta iota. rewrite inplace_last.
  destruct (pandas.setitem "user_id" _ d3) as [e|d4]; [done|].
  by rewrite length_app, Nat.add_1_r, <- app_assoc.
Qed.
End load_data.

(** ** The frame operations when they succeed *)

Lemma drop_ok c d :
  c ∈ columns d →
  pandas.drop c d = inr {| columns := filter (λ c', c' ≠ c) (columns d);
                           rows := delete c <$> rows d |}.
Proof. intros ?. unfold pandas.drop. by rewrite decide_True. Qed.

Lemma drop_fail c d : c ∉ columns d → pandas.drop c d = inl (KeyError c).
Proof. intros ?. unfold pandas.drop. by rewrite decide_False. Qed.

Lemma getattr_ok c d :
  c ∈ columns d → pandas.getattr c d = inr (cell c <$> rows d).
Proof. intros ?. unfold pandas.getattr. by rewrite decide_True. Qed.

Lemma setitem_ok c s d :
  length s = length (rows d) →
  pandas.setitem c s d =
  inr {| columns := if decide (c ∈ columns d) then columns d
                    else columns d ++ [c];
         rows := zip_with (λ r v, <[c:=v]> r) (rows d) s |}.
Proof. intros ?. unfold pandas.setitem. by rewrite decide_True. Qed.

Lemma elem_of_columns_drop c c' (cols : list string) :
  c ∈ filter (λ x, x ≠ c') cols ↔ c ≠ c' ∧ c ∈ cols.
Proof. exact (list_elem_of_filter (λ x, x ≠ c') cols c). Qed.

Lemma elem_of_columns_set c c' (cols : list string) :
  c ∈ (if decide (c' ∈ cols) then cols else cols ++ [c']) ↔ c = c' ∨ c ∈ cols.
Proof.
  case_decide as Hc'.
  - split; [auto|]. by intros [->|?].
  - rewrite elem_of_app, list_elem_of_singleton. tauto.
Qed.

Section loaded.
Variable int_of_str : string → option Z.

(** With its three columns there and the article ids readable as
    integers, the interaction frame loads, and this is what comes out. *)
Lemma loaded_interactions_ok (FI : DataFrame) (ids : Series) :
  "Unnamed: 0" ∈ columns FI →
  "article_id" ∈ columns FI →
  "email" ∈ columns FI →
  pandas.astype_int int_of_str (cell "article_id" <$> rows FI) = inr ids →
  ∃ d, loaded_interactions int_of_str FI = inr d ∧
    (∀ c, c ∈ columns d ↔
          c = "user_id" ∨
          (c ≠ "email" ∧ c ≠ "Unnamed: 0" ∧ c ∈ columns FI)) ∧
    cell "user_id" <$> rows d =
      id_cells (user_ids (encode_emails (cell "email" <$> rows FI))) ∧
    cell "article_id" <$> rows d = ids ∧
    length (rows d) = length (rows FI).
Proof.
  intros HU Ha He Hids. unfold loaded_interactions.
  rewrite drop_ok by done. unfold rbind at 1.
  set (d1 := {| columns := filter (λ c', c' ≠ "Unnamed: 0") (columns FI);
                rows := delete "Unnamed: 0" <$> rows FI |}).
  assert (∀ c, c ∈ columns d1 ↔ c ≠ "Unnamed: 0" ∧ c ∈ columns FI) as Hc1.
  { intros c. apply elem_of_columns_drop. }
  assert (cell "article_id" <$> rows d1 = cell "article_id" <$> rows FI)
    as Ha1 by (by apply column_delete_ne).
  assert (cell "email" <$> rows d1 = cell "email" <$> rows FI)
    as He1 by (by apply column_delete_ne).
  assert (length (rows d1) = length (rows FI)) as Hl1
    by (simpl; by rewrite length_fmap).
  clearbody d1.
  rewrite (getattr_ok _ d1) by (by apply Hc1). unfold rbind at 2.
  rewrite Ha1, Hids. unfold rbind at 2.
  pose proof (traverse_length _ _ _ Hids) as Hlen.
  rewrite length_fmap in Hlen.
  rewrite setitem_ok by congruence. unfold rbind at 1.
  set (d2 := {| columns := _; rows := _ |}).
  assert (columns d2 = columns d1) as Hc2.
  { simpl. rewrite decide_True; [done|]. by apply Hc1. }
  assert (cell "email" <$> rows d2 = cell "email" <$> rows FI) as He2.
  { simpl. rewrite column_set_ne; [done..|congruence]. }
  assert (cell "article_id" <$> rows d2 = ids) as Ha2.
  { simpl. apply column_set_eq. congruence. }
  assert (length (rows d2) = length (rows FI)) as Hl2.
  { simpl. rewrite length_zip_with. lia. }
  clearbody d2.
  rewrite (getattr_ok _ d2) by (rewrite Hc2; by apply Hc1).
  unfold rbind at 1. rewrite He2.
  rewrite drop_ok by (rewrite Hc2; by apply Hc1). unfold rbind at 1.
  set (emails := cell "email" <$> rows FI).
  assert (length (id_cells (user_ids (encode_emails emails))) =
          length (rows FI)) as Hl3.
  { unfold id_cells, emails. by rewrite length_fmap, encode_ids_length,
      length_fmap. }
  rewrite setitem_ok by (simpl; rewrite length_fmap; congruence).
  eexists. split; [done|]. split_and!.
  - intros c. cbn [columns].
    rewrite elem_of_columns_set, elem_of_columns_drop, Hc2, Hc1. tauto.
  - cbn [rows]. apply column_set_eq. rewrite length_fmap. congruence.
  - cbn [rows]. rewrite column_set_ne;
      [|done|rewrite length_fmap; congruence].
    by rewrite column_delete_ne.
  - cbn [rows]. rewrite length_zip_with, length_fmap. lia.
Qed.
End loaded.

(** The rank of an e-mail among the first appearances is the number of
    distinct e-mails that come before its first occurrence. *)
Lemma unique_lookup_prefix {A} `{EqDecision A} (l : list A) k x :
  pandas.unique l !! k = Some x →
  ∃ p, l !! p = Some x ∧ (x ∉ take p l) ∧
       k = length (pandas.unique (take p l)).
Proof.
  revert k. induction l as [|y l IH] using rev_ind; intros k; [done|].
  rewrite unique_snoc. intros Hk.
  assert (pandas.unique l !! k = Some x ∨
          ((y ∉ l) ∧ x = y ∧ k = length (pandas.unique l))) as [Hk'|Hk'].
  { case_decide; [left; by rewrite app_nil_r in Hk|].
    apply lookup_snoc_Some in Hk as [[_ ?]|[-> ->]]; [by left|by right]. }
  - apply IH in Hk' as (p & Hp & Hnot & ->). exists p.
    pose proof (lookup_lt_Some _ _ _ Hp) as Hlt.
    rewrite lookup_app_l, take_app_le by lia. done.
  - destruct Hk' as (Hy & -> & ->). exists (length l).
    rewrite list_lookup_middle by done.
    rewrite take_app_le, firstn_all by lia. done.
Qed.

(** ** The loader *)

Section loader_claims.
Variable int_of_str : string → option Z.

(** With the columns it reads in place, [load_data] returns, and leaves
    the two frames as the last two objects of the store. *)
Lemma load_data_ok (FA FI : DataFrame) (σ : store) (ids : Series) :
  "Unnamed: 0" ∈ columns FA →
  "Unnamed: 0" ∈ columns FI →
  "article_id" ∈ columns FI →
  "email" ∈ columns FI →
  pandas.astype_int int_of_str (cell "article_id" <$> rows FI) = inr ids →
  ∃ d,
    load_data int_of_str FA FI σ =
      inr ((length σ, S (length σ)), σ ++ [loaded_articles FA; d]) ∧
    (σ ++ [loaded_articles FA; d]) !! S (length σ) = Some d ∧
    (∀ c, c ∈ columns d ↔
          c = "user_id" ∨
          (c ≠ "email" ∧ c ≠ "Unnamed: 0" ∧ c ∈ columns FI)) ∧
    cell "user_id" <$> rows d =
      id_cells (user_ids (encode_emails (cell "email" <$> rows FI))) ∧
    cell "article_id" <$> rows d = ids ∧
    length (rows d) = length (rows FI).
Proof.
  intros HA HU Ha He Hids.
  destruct (loaded_interactions_ok int_of_str FI ids HU Ha He Hids)
    as (d & Hd & Hrest).
  exists d. split_and!; [| |apply Hrest..].
  - rewrite load_data_run, drop_ok, Hd by done. done.
  - rewrite lookup_app_r by lia.
    by replace (S (length σ) - length σ) with 1 by lia.
Qed.

(** Row by row: the [user_id] cell of a loaded row is the id the encoder
    holds for the key of that row in the file. *)
Lemma loaded_row_key (rs rs' : list Row) n e :
  cell "user_id" <$> rs' =
    id_cells (user_ids (encode_emails (cell "email" <$> rs))) →
  pandas.iter_keys (cell "email" <$> rs) !! n = Some e →
  ∃ r' k,
    rs' !! n = Some r' ∧
    cell "user_id" r' = VInt (Z.of_nat k) ∧
    email_encoder (encode_emails (cell "email" <$> rs)) !! e = Some k ∧
    pandas.unique (pandas.iter_keys (cell "email" <$> rs)) !! k = Some e.
Proof.
  intros Huid Hn. unfold encode_emails in *.
  destruct (encode_keys_ids_lookup _ _ _ Hn) as (k & Hk & Henc & Hu).
  assert ((cell "user_id" <$> rs') !! n = Some (VInt (Z.of_nat k))) as Hc.
  { rewrite Huid. unfold id_cells. by rewrite list_lookup_fmap, Hk. }
  rewrite list_lookup_fmap in Hc.
  destruct (rs' !! n) as [r'|]; [|done].
  exists r', k. by injection Hc as ->.
Qed.

(** The same by e-mails, where a cell is missing only beside a string. *)
Lemma loaded_row_id (rs rs' : list Row) n r :
  missing_is_shared (cell "email" <$> rs) →
  cell "user_id" <$> rs' =
    id_cells (user_ids (encode_emails (cell "email" <$> rs))) →
  rs !! n = Some r →
  ∃ r' k,
    rs' !! n = Some r' ∧
    cell "user_id" r' = VInt (Z.of_nat k) ∧
    email_encoder (encode_emails (cell "email" <$> rs))
      !! KCell (cell "email" r) = Some k ∧
    pandas.unique (cell "email" <$> rs) !! k = Some (cell "email" r).
Proof.
  intros Hs Huid Hn.
  destruct (loaded_row_key rs rs' n (KCell (cell "email" r)) Huid)
    as (r' & k & Hr' & Hk & Henc & Hu).
  { by rewrite (iter_keys_shared _ Hs), !list_lookup_fmap, Hn. }
  exists r', k. split_and!; [done..|].
  rewrite (iter_keys_shared _ Hs), unique_cells, list_lookup_fmap in Hu.
  destruct (pandas.unique (cell "email" <$> rs) !! k); by simplify_eq/=.
Qed.

(** C1, as the code has it.  For every interaction log that loads,
    [load_data] puts the ids of the loop in a [user_id] column that
    replaces the [email] column, one id per row.  The id of a row is the
    rank, counted from 0, of the row's e-mail among the distinct e-mails
    in order of first appearance: the number of distinct e-mails in the
    rows before the e-mail's first row, the next unused integer at that
    point.  This holds of the e-mails as the loop tells them apart, the
    keys of [pandas.iter_keys], for every log: equal strings and equal
    numbers are one e-mail, a missing e-mail of a column that holds a
    string is one e-mail, and a missing e-mail of a column without a
    string is an e-mail not seen before, in every row.  It holds of the
    e-mail cells themselves for every log in which an e-mail is missing
    only beside an e-mail string. *)
Theorem C1_load_data_encodes_first_seen
    (FA FI : DataFrame) (σ : store) (ids : Series) :
  "Unnamed: 0" ∈ columns FA →
  "Unnamed: 0" ∈ columns FI →
  "article_id" ∈ columns FI →
  "email" ∈ columns FI →
  pandas.astype_int int_of_str (cell "article_id" <$> rows FI) = inr ids →
  ∃ articles interactions σ' d,
    load_data int_of_str FA FI σ = inr ((articles, interactions), σ') ∧
    σ' !! interactions = Some d ∧
    ("email" ∉ columns d) ∧ "user_id" ∈ columns d ∧
    length (rows d) = length (rows FI) ∧
    cell "user_id" <$> rows d =
      id_cells (user_ids (encode_emails (cell "email" <$> rows FI))) ∧
    (∀ n e, pandas.iter_keys (cell "email" <$> rows FI) !! n = Some e →
       ∃ r' k p,
         rows d !! n = Some r' ∧
         cell "user_id" r' = VInt (Z.of_nat k) ∧
         pandas.unique (pandas.iter_keys (cell "email" <$> rows FI)) !! k
           = Some e ∧
         pandas.iter_keys (cell "email" <$> rows FI) !! p = Some e ∧
         (e ∉ take p (pandas.iter_keys (cell "email" <$> rows FI))) ∧
         k = size (list_to_set (C:=gset dict_key)
                     (take p (pandas.iter_keys (cell "email" <$> rows FI))))) ∧
    (missing_is_shared (cell "email" <$> rows FI) →
     ∀ n r, rows FI !! n = Some r →
       ∃ r' k p,
         rows d !! n = Some r' ∧
         cell "user_id" r' = VInt (Z.of_nat k) ∧
         pandas.unique (cell "email" <$> rows FI) !! k
           = Some (cell "email" r) ∧
         (cell "email" <$> rows FI) !! p = Some (cell "email" r) ∧
         (cell "email" r ∉ take p (cell "email" <$> rows FI)) ∧
         k = size (list_to_set (C:=gset value)
                     (take p (cell "email" <$> rows FI)))).
Proof.
  intros HA HU Ha He Hids.
  destruct (load_data_ok FA FI σ ids HA HU Ha He Hids)
    as (d & Hrun & Hd & Hcols & Huid & _ & Hlen).
  eexists _, _, _, d. split_and!; [exact Hrun|exact Hd| | |done..| |].
  - rewrite Hcols. intros [?|[? _]]; done.
  - apply Hcols. by left.
  - intros n e Hn.
    destruct (loaded_row_key _ _ _ _ Huid Hn) as (r' & k & Hr' & Hk & _ & Hu).
    destruct (unique_lookup_prefix _ _ _ Hu) as (p & Hp & Hnp & Hkp).
    exists r', k, p. split_and!; [done..|]. by rewrite <- unique_length.
  - intros Hs n r Hn.
    destruct (loaded_row_id _ _ _ _ Hs Huid Hn)
      as (r' & k & Hr' & Hk & _ & Hu).
    destruct (unique_lookup_prefix _ _ _ Hu) as (p & Hp & Hnp & Hkp).
    exists r', k, p. split_and!; [done..|]. by rewrite <- unique_length.
Qed.

(** C2, as the code has it.  For every interaction log that loads, the
    [user_id] column has as many distinct ids as the loop meets distinct
    e-mails, two rows have the same id exactly when the loop takes their
    e-mails for the same, and an id the encoder holds after some turns of
    the loop is the id it holds at the end (write-once).  The e-mails are
    those the loop tells apart, the keys of [pandas.iter_keys]; in every
    log in which an e-mail is missing only beside an e-mail string they
    are the e-mail cells: as many distinct ids as distinct e-mail cells,
    and the same id exactly for the same e-mail cell. *)
Theorem C2_distinct_ids_match_distinct_emails
    (FA FI : DataFrame) (σ : store) (ids : Series) :
  "Unnamed: 0" ∈ columns FA →
  "Unnamed: 0" ∈ columns FI →
  "article_id" ∈ columns FI →
  "email" ∈ columns FI →
  pandas.astype_int int_of_str (cell "article_id" <$> rows FI) = inr ids →
  ∃ articles interactions σ' d,
    load_data int_of_str FA FI σ = inr ((articles, interactions), σ') ∧
    σ' !! interactions = Some d ∧
    size (list_to_set (C:=gset value) (cell "user_id" <$> rows d)) =
      size (list_to_set (C:=gset dict_key)
              (pandas.iter_keys (cell "email" <$> rows FI))) ∧
    (∀ n m k1 k2 r1' r2',
       pandas.iter_keys (cell "email" <$> rows FI) !! n = Some k1 →
       pandas.iter_keys (cell "email" <$> rows FI) !! m = Some k2 →
       rows d !! n = Some r1' → rows d !! m = Some r2' →
       cell "user_id" r1' = cell "user_id" r2' ↔ k1 = k2) ∧
    (∀ seen rest e k,
       pandas.iter_keys (cell "email" <$> rows FI) = seen ++ rest →
       email_encoder (encode_keys seen) !! e = Some k →
       email_encoder (encode_emails (cell "email" <$> rows FI)) !! e
         = Some k) ∧
    (missing_is_shared (cell "email" <$> rows FI) →
     size (list_to_set (C:=gset value) (cell "user_id" <$> rows d)) =
       size (list_to_set (C:=gset value) (cell "email" <$> rows FI)) ∧
     (∀ n m r1 r2 r1' r2',
        rows FI !! n = Some r1 → rows FI !! m = Some r2 →
        rows d !! n = Some r1' → rows d !! m = Some r2' →
        cell "user_id" r1' = cell "user_id" r2' ↔
        cell "email" r1 = cell "email" r2)).
Proof.
  intros HA HU Ha He Hids.
  destruct (load_data_ok FA FI σ ids HA HU Ha He Hids)
    as (d & Hrun & Hd & Hcols & Huid & _ & Hlen).
  eexists _, _, _, d. split_and!; [exact Hrun|exact Hd|..].
  - rewrite <- !unique_length, Huid. unfold id_cells, encode_emails.
    rewrite unique_fmap_inj by (intros x y _ _ [= ?]; lia).
    by rewrite length_fmap, encode_keys_ids_unique, length_fmap.
  - intros n m k1 k2 r1' r2' Hn Hm Hn' Hm'.
    destruct (loaded_row_key _ _ _ _ Huid Hn)
      as (? & i1 & ? & Hi1 & He1 & _).
    destruct (loaded_row_key _ _ _ _ Huid Hm)
      as (? & i2 & ? & Hi2 & He2 & _).
    simplify_eq. rewrite Hi1, Hi2. split.
    + intros [= Hk]. apply Nat2Z.inj in Hk as ->.
      by eapply encode_keys_encoder_inj.
    + intros Heq. rewrite Heq in He1. congruence.
  - intros seen rest e k Hkeys Hk. unfold encode_emails, encode_keys.
    rewrite Hkeys, foldl_app. by apply encode_write_once.
  - intros Hs. split.
    + rewrite <- !unique_length, Huid. unfold id_cells.
      rewrite unique_fmap_inj by (intros x y _ _ [= ?]; lia).
      by rewrite length_fmap, encode_ids_unique, length_fmap.
    + intros n m r1 r2 r1' r2' Hn Hm Hn' Hm'.
      destruct (loaded_row_id _ _ _ _ Hs Huid Hn)
        as (? & k1 & ? & Hk1 & He1 & _).
      destruct (loaded_row_id _ _ _ _ Hs Huid Hm)
        as (? & k2 & ? & Hk2 & He2 & _).
      simplify_eq. rewrite Hk1, Hk2. split.
      * intros [= Hk]. apply Nat2Z.inj in Hk as ->.
        assert (KCell (cell "email" r1) = KCell (cell "email" r2)) as Heq
          by (by eapply encode_keys_encoder_inj).
        by injection Heq.
      * intros Heq. rewrite Heq in He1. congruence.
Qed.

Lemma astype_int_error s e :
  pandas.astype_int int_of_str s = inl e → e = ValueError.
Proof.
  unfold pandas.astype_int. induction s as [|v s IH]; simpl; [done|].
  destruct (pandas.to_int int_of_str v) as [e'|w] eqn:Hv; simpl.
  - intros [= <-]. destruct v as [z|t|]; simpl in Hv; [done| |congruence].
    destruct (int_of_str t); congruence.
  - destruct (traverse _ s) as [e'|ws]; simpl; [|done].
    intros [= <-]. by apply IH.
Qed.

(** Past its first step, the loading of the interaction frame raises no
    [KeyError] for the index column. *)
Lemma loaded_interactions_no_index_error (FI : DataFrame) :
  "Unnamed: 0" ∈ columns FI →
  loaded_interactions int_of_str FI ≠ inl (KeyError "Unnamed: 0").
Proof.
  intros HU. unfold loaded_interactions. rewrite drop_ok by done.
  unfold rbind at 1. fold (loaded_articles FI).
  generalize (loaded_articles FI). intros d1.
  unfold rbind, pandas.getattr, pandas.setitem, pandas.drop.
  destruct (decide ("article_id" ∈ columns d1)); [|done].
  destruct (pandas.astype_int _ _) as [err|ids] eqn:Hids.
  { apply astype_int_error in Hids as ->. done. }
  repeat (case_decide; try done).
Qed.

(** C9. Without the index column in one of the files the loader fails
    with the [KeyError] of the column drop, whatever else the files
    hold, and so does the whole analysis; with the column in both files
    neither drop fails, and the loader raises no such error. *)
Theorem C9_missing_index_column_fails_at_drop
    (FA FI : DataFrame) (σ : store) :
  ("Unnamed: 0" ∉ columns FA ∨ "Unnamed: 0" ∉ columns FI →
     load_data int_of_str FA FI σ = inl (KeyError "Unnamed: 0") ∧
     exploratory_analysis int_of_str FA FI σ
       = inl (KeyError "Unnamed: 0") ∧
     (pandas.drop "Unnamed: 0" FA = inl (KeyError "Unnamed: 0") ∨
      pandas.drop "Unnamed: 0" FI = inl (KeyError "Unnamed: 0"))) ∧
  ("Unnamed: 0" ∈ columns FA → "Unnamed: 0" ∈ columns FI →
     is_ok (pandas.drop "Unnamed: 0" FA) = true ∧
     is_ok (pandas.drop "Unnamed: 0" FI) = true ∧
     load_data int_of_str FA FI σ ≠ inl (KeyError "Unnamed: 0")).
Proof.
  split.
  - intros Hmiss.
    assert (load_data int_of_str FA FI σ = inl (KeyError "Unnamed: 0"))
      as Hload.
    { rewrite load_data_run.
      destruct (decide ("Unnamed: 0" ∈ columns FA)) as [HA|HA].
      - destruct Hmiss as [?|HI]; [done|].
        rewrite drop_ok by done. unfold rbind at 1.
        unfold loaded_interactions. by rewrite drop_fail.
      - by rewrite drop_fail. }
    split_and!; [done| |].
    + unfold exploratory_analysis, mbind. by rewrite Hload.
    + destruct Hmiss; [left|right]; by apply drop_fail.
  - intros HA HI. rewrite !drop_ok by done. split_and!; [done..|].
    rewrite load_data_run, drop_ok by done. unfold rbind at 1.
    pose proof (loaded_interactions_no_index_error FI HI) as Hne.
    destruct (loaded_interactions int_of_str FI); simpl; congruence.
Qed.
End loader_claims.

(** ** [articles_statistics], object by object *)

(** When the two variables name one object, the interactions are read
    after the deduplication; otherwise they are read as they were. *)
Lemma articles_statistics_run (articles interactions : nat) (σ : store) A J :
  σ !! articles = Some A →
  σ !! interactions = Some J →
  articles_statistics articles interactions σ =
  (A' ← pandas.drop_duplicates "article_id" A;
   st ← article_statistics_of A'
          (if decide (articles = interactions) then A' else J);
   inr (st, <[articles:=A']> σ))%result.
Proof.
  intros Ha Hj. pose proof (lookup_lt_Some _ _ _ Ha) as Hlt.
  unfold articles_statistics, article_statistics_of, mbind, mret, lift, rbind.
  rewrite (inplace_run _ _ _ _ Ha).
  destruct (pandas.drop_duplicates "article_id" A) as [e|A']; [done|].
  cbv beta iota.
  assert (<[articles:=A']> σ !! articles = Some A') as Ha'
    by (by apply list_lookup_insert_eq).
  assert (<[articles:=A']> σ !! interactions =
          Some (if decide (articles = interactions) then A' else J)) as Hi.
  { case_decide as Heq; [by rewrite <- Heq|].
    by rewrite list_lookup_insert_ne. }
  generalize dependent (if decide (articles = interactions) then A' else J).
  intros J' Hi.
  rewrite (read_run _ _ _ _ Ha').
  destruct (pandas.set_index "article_id" A') as [e|other]; [done|].
  cbv beta iota. rewrite (read_run _ _ _ _ Hi).
  destruct (pandas.join J' other "article_id") as [e|df]; [done|].
  destruct (pandas.getattr "article_id" df) as [e|ids]; [done|].
  cbv beta iota zeta. rewrite (read_run _ _ _ _ Ha'). cbv beta iota.
  destruct (pandas.drop_duplicates "article_id" df) as [e|d]; [done|].
  rewrite (read_run _ _ _ _ Hi).
  destruct (pandas.getattr "user_id" J') as [e|users]; [done|].
  cbv beta iota. rewrite (read_run _ _ _ _ Hi). cbv beta iota.
  destruct (first_row (pandas.value_counts ids).*1) as [e|top_id]; [done|].
  destruct (first_row (pandas.value_counts ids).*2) as [e|top_views]; done.
Qed.

(** ** The left join on deduplicated articles *)

Lemma filter_none {A} (P : A → Prop) `{∀ x, Decision (P x)} (l : list A) :
  (∀ x, x ∈ l → ¬ P x) → filter P l = [].
Proof.
  induction l as [|x l IH]; intros Hl; [done|].
  rewrite filter_cons, decide_False by (apply Hl; by left).
  apply IH. intros y Hy. apply Hl. by right.
Qed.

Lemma filter_key_NoDup {A K} `{EqDecision K} (l : list (K * A)) k :
  NoDup l.*1 → length (filter (λ m, m.1 = k) l) ≤ 1.
Proof.
  induction l as [|m l IH]; [simpl; lia|].
  rewrite fmap_cons, NoDup_cons, filter_cons. intros [Hm Hnd].
  case_decide as Hk; [|by apply IH].
  assert (filter (λ m, m.1 = k) l = []) as ->; [|simpl; lia].
  apply filter_none. intros m' Hm' Hk'.
  apply Hm. rewrite Hk, <- Hk'. apply list_elem_of_fmap. eauto.
Qed.

Lemma nulls_lookup cols c :
  pandas.nulls cols !! c = if decide (c ∈ cols) then Some VNaN else None.
Proof.
  unfold pandas.nulls. case_decide as Hc.
  - apply elem_of_list_to_map_1'.
    + intros v (c' & [= <- <-] & _)%list_elem_of_fmap. done.
    + apply list_elem_of_fmap. eauto.
  - apply not_elem_of_list_to_map_1. rewrite <- list_fmap_compose.
    intros (c' & -> & ?)%list_elem_of_fmap. done.
Qed.

(** The key cell of a joined row is the key cell of the left row. *)
Lemma cell_join_other on (r m : Row) : m !! on = None → cell on (r ∪ m) = cell on r.
Proof.
  intros Hm. unfold cell. rewrite lookup_union.
  destruct (r !! on); simpl; [by destruct (m !! on)|by rewrite Hm].
Qed.

Section join.
Variables (on : string) (A : DataFrame) (other : pandas.IndexedFrame).
Hypothesis Hother : pandas.set_index on A = inr other.

Lemma set_index_columns c : c ∈ pandas.ix_columns other ↔ c ≠ on ∧ c ∈ columns A.
Proof.
  unfold pandas.set_index in Hother. case_decide; [|done].
  injection Hother as <-. apply elem_of_columns_drop.
Qed.

Lemma set_index_rows :
  pandas.ix_rows other = (λ r, (cell on r, delete on r)) <$> rows A.
Proof.
  unfold pandas.set_index in Hother. case_decide; [|done].
  by injection Hother as <-.
Qed.

Lemma set_index_keys : (pandas.ix_rows other).*1 = cell on <$> rows A.
Proof. rewrite set_index_rows. by rewrite <- list_fmap_compose. Qed.

Lemma join_row_key r r' :
  r' ∈ pandas.join_row other on r → cell on r' = cell on r.
Proof.
  unfold pandas.join_row.
  destruct (filter _ (pandas.ix_rows other)) as [|m ms] eqn:Hf.
  - intros ->%list_elem_of_singleton. apply cell_join_other.
    rewrite nulls_lookup, decide_False; [done|].
    rewrite set_index_columns. by intros [? _].
  - intros (m' & -> & Hm')%list_elem_of_fmap.
    apply cell_join_other. rewrite <- Hf in Hm'.
    apply list_elem_of_filter in Hm' as [_ Hm'].
    rewrite set_index_rows in Hm'.
    apply list_elem_of_fmap in Hm' as (? & -> & _). apply lookup_delete_eq.
Qed.

(** With no article id twice, every interaction row joins to one row. *)
Lemma join_row_single r :
  NoDup (cell on <$> rows A) →
  ∃ r', pandas.join_row other on r = [r'].
Proof.
  intros Hnd. rewrite <- set_index_keys in Hnd.
  pose proof (filter_key_NoDup (pandas.ix_rows other) (cell on r) Hnd) as Hle.
  unfold pandas.join_row.
  destruct (filter _ (pandas.ix_rows other)) as [|m [|m' ms]];
    simpl in *; [eauto..|lia].
Qed.

(** A row whose key no article has is kept, with every article column
    missing. *)
Lemma join_row_unmatched r :
  (∀ m, m ∈ rows A → cell on m ≠ cell on r) →
  pandas.join_row other on r = [r ∪ pandas.nulls (pandas.ix_columns other)].
Proof.
  intros Hno. unfold pandas.join_row.
  assert (filter (λ m, m.1 = cell on r) (pandas.ix_rows other) = []) as ->;
    [|done].
  apply filter_none. intros m Hm Hk.
  rewrite set_index_rows in Hm.
  apply list_elem_of_fmap in Hm as (m' & -> & Hm'). by eapply Hno.
Qed.

Lemma join_rows_key_column (rs : list Row) :
  NoDup (cell on <$> rows A) →
  cell on <$> (rs ≫= pandas.join_row other on) = cell on <$> rs.
Proof.
  intros Hnd. induction rs as [|r rs IH]; [done|].
  rewrite bind_cons, fmap_app, IH, fmap_cons. 
  destruct (join_row_single r Hnd) as [r' Hr']. rewrite Hr'. simpl.
  f_equal. apply join_row_key. rewrite Hr'. by left.
Qed.
End join.

(** The check on the key columns looks at the kinds of cells a column
    holds, not at how often or where. *)
Lemma existsb_elements {A} (f : A → bool) (l l' : list A) :
  (∀ x, x ∈ l ↔ x ∈ l') → existsb f l = existsb f l'.
Proof.
  intros Hl. apply Bool.eq_iff_eq_true. rewrite !existsb_exists.
  split; intros (x & Hx & Hf); exists x; split; try done;
    apply list_elem_of_In; apply Hl; by apply list_elem_of_In.
Qed.

Lemma keys_agree_elements (lk lk' rk rk' : Series) :
  (∀ x, x ∈ lk ↔ x ∈ lk') → (∀ x, x ∈ rk ↔ x ∈ rk') →
  pandas.keys_agree lk rk = pandas.keys_agree lk' rk'.
Proof.
  intros Hl Hr. unfold pandas.keys_agree.
  rewrite (existsb_elements is_str lk lk'), (existsb_elements is_int lk lk'),
    (existsb_elements is_str rk rk'), (existsb_elements is_int rk rk') by done.
  destruct lk as [|x lk], lk' as [|x' lk']; [done| | |].
  - exfalso. eapply not_elem_of_nil, Hl. by left.
  - exfalso. eapply not_elem_of_nil, Hl. by left.
  - destruct rk as [|y rk], rk' as [|y' rk']; [done| | |done].
    + exfalso. eapply not_elem_of_nil, Hr. by left.
    + exfalso. eapply not_elem_of_nil, Hr. by left.
Qed.

(** Key columns without a string pass the check. *)
Lemma keys_agree_numbers (lk rk : Series) :
  existsb is_str lk = false → existsb is_str rk = false →
  pandas.keys_agree lk rk = true.
Proof.
  intros Hl Hr. unfold pandas.keys_agree. rewrite Hl, Hr.
  by destruct lk, rk.
Qed.

Lemma join_inv J other on d :
  pandas.join J other on = inr d →
  columns d = columns J ++ pandas.ix_columns other ∧
  rows d = rows J ≫= pandas.join_row other on.
Proof.
  unfold pandas.join. case_decide; [|done].
  destruct (pandas.keys_agree _ _); [|done].
  case_decide; [done|]. by intros [= <-].
Qed.

Lemma join_ok J other on :
  on ∈ columns J →
  pandas.keys_agree (cell on <$> rows J) (pandas.ix_rows other).*1 = true →
  (∀ c, c ∈ pandas.ix_columns other → c ∉ columns J) →
  pandas.join J other on =
  inr {| columns := columns J ++ pandas.ix_columns other;
         rows := rows J ≫= pandas.join_row other on |}.
Proof.
  intros Hon Hk Hno. unfold pandas.join.
  rewrite decide_True, Hk, decide_False; [done| |done].
  intros (c & Hc & HcJ)%Exists_exists. by eapply Hno.
Qed.

Lemma drop_duplicates_ok c d :
  c ∈ columns d →
  pandas.drop_duplicates c d =
  inr {| columns := columns d; rows := keep_first (cell c) [] (rows d) |}.
Proof. intros ?. unfold pandas.drop_duplicates. by rewrite decide_True. Qed.

Lemma drop_duplicates_NoDup c d d' :
  pandas.drop_duplicates c d = inr d' → NoDup (cell c <$> rows d').
Proof.
  unfold pandas.drop_duplicates. case_decide; [|done]. intros [= <-].
  simpl. rewrite keep_first_keys. apply keep_first_id_NoDup.
Qed.

Lemma drop_duplicates_keys c d d' :
  pandas.drop_duplicates c d = inr d' →
  columns d' = columns d ∧
  cell c <$> rows d' = pandas.unique (cell c <$> rows d) ∧
  ∀ r, r ∈ rows d' → r ∈ rows d.
Proof.
  unfold pandas.drop_duplicates. case_decide; [|done]. intros [= <-].
  simpl. split_and!; [done|apply keep_first_keys|].
  intros r Hr. by apply keep_first_elem_of in Hr as [? _].
Qed.

Lemma first_rows_head {A B} (l : list (A * B)) a b :
  first_row l.*1 = inr a → first_row l.*2 = inr b → head l = Some (a, b).
Proof. destruct l as [|[x y] l]; simpl; [done|]. by intros [= ->] [= ->]. Qed.

(** What the statistics are, read off a run that returned them. *)
Lemma article_statistics_of_inv (A J : DataFrame) (st : ArticleStatistics) :
  NoDup (cell "article_id" <$> rows A) →
  article_statistics_of A J = inr st →
  ∃ other,
    pandas.set_index "article_id" A = inr other ∧
    columns (df st) = columns J ++ pandas.ix_columns other ∧
    rows (df st) = rows J ≫= pandas.join_row other "article_id" ∧
    cell "article_id" <$> rows (df st) = cell "article_id" <$> rows J ∧
    article_popularity st =
      pandas.value_counts (cell "article_id" <$> rows J) ∧
    number_of_unique_articles st = length (rows A) ∧
    number_of_unique_articles_with_interaction st =
      length (pandas.unique (cell "article_id" <$> rows J)) ∧
    number_of_unique_users st =
      length (pandas.unique (cell "user_id" <$> rows J)) ∧
    number_of_user_article_interactions st = length (rows J) ∧
    head (article_popularity st) =
      Some (most_viewed_article_id st, most_viewed_article_views st).
Proof.
  intros Hnd. unfold article_statistics_of, rbind.
  destruct (pandas.set_index "article_id" A) as [|other] eqn:Hother; [done|].
  destruct (pandas.join J other "article_id") as [|d] eqn:Hjoin; [done|].
  assert (columns d = columns J ++ pandas.ix_columns other ∧
          rows d = rows J ≫= pandas.join_row other "article_id") as [Hdc Hdr].
  { by apply join_inv. }
  assert (cell "article_id" <$> rows d = cell "article_id" <$> rows J) as Hkey.
  { rewrite Hdr. by eapply join_rows_key_column. }
  destruct (pandas.getattr "article_id" d) as [|ids] eqn:Hids; [done|].
  assert (ids = cell "article_id" <$> rows J) as ->.
  { unfold pandas.getattr in Hids. case_decide; [|done]. congruence. }
  destruct (pandas.drop_duplicates "article_id" d) as [|dd] eqn:Hdd; [done|].
  destruct (pandas.getattr "user_id" J) as [|users] eqn:Hu; [done|].
  assert (users = cell "user_id" <$> rows J) as ->.
  { unfold pandas.getattr in Hu. case_decide; [|done]. congruence. }
  destruct (first_row _.*1) as [|top_id] eqn:H1; [done|].
  destruct (first_row _.*2) as [|top_views] eqn:H2; [done|].
  intros [= <-]. exists other. simpl. split_and!; try done.
  - apply drop_duplicates_keys in Hdd as (_ & Hk & _).
    unfold pandas.shape0.
    by rewrite <- (length_fmap (cell "article_id")), Hk, Hkey.
  - by apply first_rows_head.
Qed.

(** When the statistics are computed: both frames have the article id
    column, the interactions have the user id column, the frames share no
    other column, the article ids pass the check of the join, and some
    interaction has an article id. *)
Lemma article_statistics_of_ok (A J : DataFrame) :
  NoDup (cell "article_id" <$> rows A) →
  "article_id" ∈ columns A →
  "article_id" ∈ columns J →
  "user_id" ∈ columns J →
  (∀ c, c ∈ columns J → c ∈ columns A → c = "article_id") →
  pandas.keys_agree (cell "article_id" <$> rows J)
                    (cell "article_id" <$> rows A) = true →
  (∃ r, r ∈ rows J ∧ cell "article_id" r ≠ VNaN) →
  ∃ st, article_statistics_of A J = inr st.
Proof.
  intros Hnd HA HJ HU Hshare Hkeys (r & Hr & Hrid).
  unfold article_statistics_of.
  destruct (pandas.set_index "article_id" A) as [|other] eqn:Hother.
  { unfold pandas.set_index in Hother. by rewrite decide_True in Hother. }
  unfold rbind at 1.
  destruct (pandas.join J other "article_id") as [|d] eqn:Hjoin.
  { rewrite join_ok in Hjoin; [done|done| |].
    - by rewrite (set_index_keys _ _ _ Hother).
    - intros c Hc HcJ.
      apply (set_index_columns _ _ _ Hother) in Hc as [Hne HcA]. auto. }
  assert (columns d = columns J ++ pandas.ix_columns other ∧
          rows d = rows J ≫= pandas.join_row other "article_id") as [Hdc Hdr].
  { by apply join_inv. }
  assert ("article_id" ∈ columns d) as Hd.
  { rewrite Hdc, elem_of_app. by left. }
  unfold rbind at 1. rewrite getattr_ok by done. unfold rbind at 1.
  rewrite drop_duplicates_ok by done. unfold rbind at 1 2.
  rewrite getattr_ok by done. unfold rbind at 1.
  rewrite Hdr, (join_rows_key_column _ _ _ Hother) by done.
  destruct (pandas.value_counts (cell "article_id" <$> rows J))
    as [|[v n] vc] eqn:Hvc.
  { exfalso. apply Hrid. eapply value_counts_nil_inv; [done|].
    apply list_elem_of_fmap. eauto. }
  simpl. eauto.
Qed.

(** ** The article statistics *)

Lemma articles_statistics_ok (articles interactions : nat) (σ : store) A J :
  σ !! articles = Some A →
  σ !! interactions = Some J →
  articles ≠ interactions →
  stats_frames A J →
  (∃ r, r ∈ rows J ∧ cell "article_id" r ≠ VNaN) →
  ∃ A' st,
    pandas.drop_duplicates "article_id" A = inr A' ∧
    article_statistics_of A' J = inr st ∧
    articles_statistics articles interactions σ
      = inr (st, <[articles:=A']> σ).
Proof.
  intros Ha Hi Hne [HA HJ HU Hd Hkeys] Hr.
  rewrite (articles_statistics_run _ _ _ _ _ Ha Hi).
  destruct (decide (articles = interactions)) as [|_]; [done|].
  destruct (pandas.drop_duplicates "article_id" A) as [|A'] eqn:Hdd.
  { by rewrite drop_duplicates_ok in Hdd. }
  pose proof (drop_duplicates_NoDup _ _ _ Hdd) as Hnd.
  destruct (drop_duplicates_keys _ _ _ Hdd) as (Hc & Hk & _).
  destruct (article_statistics_of_ok A' J) as [st Hst];
    rewrite ?Hc; try done.
  { rewrite Hk. etrans; [|exact Hkeys].
    apply keys_agree_elements; [done|]. intros x. apply unique_elem_of. }
  exists A', st. unfold rbind. by rewrite Hst.
Qed.

Lemma articles_statistics_inv (articles interactions : nat) (σ σ' : store)
    A J st :
  σ !! articles = Some A →
  σ !! interactions = Some J →
  articles ≠ interactions →
  articles_statistics articles interactions σ = inr (st, σ') →
  ∃ A',
    pandas.drop_duplicates "article_id" A = inr A' ∧
    article_statistics_of A' J = inr st ∧
    σ' = <[articles:=A']> σ.
Proof.
  intros Ha Hi Hne.
  rewrite (articles_statistics_run _ _ _ _ _ Ha Hi).
  destruct (decide (articles = interactions)) as [|_]; [done|].
  unfold rbind.
  destruct (pandas.drop_duplicates "article_id" A) as [|A']; [done|].
  destruct (article_statistics_of A' J) as [|st'] eqn:Hst; [done|].
  intros [= -> <-]. eauto.
Qed.

(** C4. On frames [articles_statistics] can join ([stats_frames]: the
    columns it reads, and article ids of one kind in both frames), an
    interaction whose article id no article of the catalog has is kept by
    the left join, with every catalog column missing; it is one of the
    rows the total counts; and its article id has an entry in the
    popularity ranking that counts the interaction rows with that id, this
    row among them. *)
Theorem C4_unmatched_interaction_is_kept
    (articles interactions : nat) (σ : store) (A J : DataFrame)
    (r : Row) (z : Z) :
  σ !! articles = Some A →
  σ !! interactions = Some J →
  articles ≠ interactions →
  stats_frames A J →
  r ∈ rows J →
  cell "article_id" r = VInt z →
  (∀ m, m ∈ rows A → cell "article_id" m ≠ VInt z) →
  ∃ st σ',
    articles_statistics articles interactions σ = inr (st, σ') ∧
    r ∪ pandas.nulls (filter (λ c, c ≠ "article_id") (columns A))
      ∈ rows (df st) ∧
    (∀ c, c ∈ columns A → c ≠ "article_id" →
       pandas.nulls (filter (λ c, c ≠ "article_id") (columns A)) !! c
         = Some VNaN) ∧
    number_of_user_article_interactions st = length (rows J) ∧
    (VInt z, length (filter (λ x, cell "article_id" x = VInt z) (rows J)))
      ∈ article_popularity st ∧
    0 < length (filter (λ x, cell "article_id" x = VInt z) (rows J)).
Proof.
  intros Ha Hi Hne Hf Hr Hz Hno.
  destruct (articles_statistics_ok _ _ _ _ _ Ha Hi Hne Hf)
    as (A' & st & Hdd & Hst & Hrun).
  { exists r. split; [done|]. by rewrite Hz. }
  exists st, (<[articles:=A']> σ). split; [done|].
  pose proof (drop_duplicates_NoDup _ _ _ Hdd) as Hnd.
  destruct (drop_duplicates_keys _ _ _ Hdd) as (Hc & _ & Hsub).
  destruct (article_statistics_of_inv _ _ _ Hnd Hst)
    as (other & Hother & _ & Hrows & _ & Hpop & _ & _ & _ & Htot & _).
  assert (pandas.ix_columns other
          = filter (λ c, c ≠ "article_id") (columns A)) as Hoc.
  { unfold pandas.set_index in Hother. case_decide; [|done].
    injection Hother as <-. simpl. by rewrite Hc. }
  assert (VInt z ∈ cell "article_id" <$> rows J) as Hin.
  { rewrite <- Hz. apply list_elem_of_fmap. eauto. }
  split_and!.
  - rewrite Hrows. apply list_elem_of_bind. exists r. split; [|done].
    rewrite (join_row_unmatched _ _ _ Hother), Hoc.
    + by left.
    + intros m Hm. rewrite Hz. auto.
  - intros c Hc1 Hc2. rewrite nulls_lookup, decide_True; [done|].
    by apply elem_of_columns_drop.
  - done.
  - rewrite Hpop, <- occurrences_fmap. by apply value_counts_elem_of.
  - rewrite <- occurrences_fmap. by apply occurrences_pos.
Qed.

(** The first row of a ranking is a cell of the series, with the number of
    its occurrences, and no cell of the series occurs more often. *)
Lemma value_counts_head (s : Series) v n :
  head (pandas.value_counts s) = Some (v, n) →
  v ∈ s ∧ n = occurrences v s ∧
  ∀ w, w ∈ s → w ≠ VNaN → occurrences w s ≤ n.
Proof.
  intros Hhd.
  assert ((v, n) ∈ pandas.value_counts s) as Hin.
  { destruct (pandas.value_counts s); simplify_eq/=. by left. }
  apply value_counts_elem_of in Hin as (Hv & _ & Hn).
  split_and!; [done..|]. intros w Hw Hnan.
  assert ((w, occurrences w s) ∈ pandas.value_counts s) as Hwin
    by (by apply value_counts_elem_of).
  pose proof (sort_desc_sorted
    ((λ v, (v, occurrences v (filter (λ v, v ≠ VNaN) s)))
       <$> pandas.unique (filter (λ v, v ≠ VNaN) s))) as Hs.
  fold (pandas.value_counts s) in Hs.
  destruct (pandas.value_counts s) as [|x vc]; simplify_eq/=.
  apply StronglySorted_inv in Hs as [_ Hs].
  apply elem_of_cons in Hwin as [Heq|Hwin]; [simplify_eq; lia|].
  rewrite Forall_forall in Hs. apply (Hs _ Hwin).
Qed.

(** C5. For a non-empty interactions table, on frames
    [articles_statistics] can join ([stats_frames]), the reported view
    count is the largest number of interaction rows any article id has,
    and the reported article id is one with that many rows: the first row
    of the ranking, which is in descending order of count. *)
Theorem C5_most_viewed_is_maximum
    (articles interactions : nat) (σ : store) (A J : DataFrame) :
  σ !! articles = Some A →
  σ !! interactions = Some J →
  articles ≠ interactions →
  stats_frames A J →
  rows J ≠ [] →
  (∀ r, r ∈ rows J → cell "article_id" r ≠ VNaN) →
  ∃ st σ',
    articles_statistics articles interactions σ = inr (st, σ') ∧
    head (article_popularity st) =
      Some (most_viewed_article_id st, most_viewed_article_views st) ∧
    StronglySorted count_ge (article_popularity st) ∧
    most_viewed_article_id st ∈ cell "article_id" <$> rows J ∧
    most_viewed_article_views st =
      length (filter (λ r, cell "article_id" r = most_viewed_article_id st)
                (rows J)) ∧
    (∀ r, r ∈ rows J →
       length (filter (λ x, cell "article_id" x = cell "article_id" r)
                 (rows J))
       ≤ most_viewed_article_views st).
Proof.
  intros Ha Hi Hne Hf Hrows Hnan.
  destruct (articles_statistics_ok _ _ _ _ _ Ha Hi Hne Hf)
    as (A' & st & Hdd & Hst & Hrun).
  { destruct (rows J) as [|r rs]; [done|]. exists r.
    split; [by left|]. apply Hnan. by left. }
  exists st, (<[articles:=A']> σ). split; [done|].
  pose proof (drop_duplicates_NoDup _ _ _ Hdd) as Hnd.
  destruct (article_statistics_of_inv _ _ _ Hnd Hst)
    as (_ & _ & _ & _ & _ & Hpop & _ & _ & _ & _ & Hhead).
  rewrite Hpop in Hhead |- *.
  destruct (value_counts_head _ _ _ Hhead) as (Hin & Hn & Hmax).
  split_and!; [done|apply sort_desc_sorted|done| |].
  - by rewrite Hn, occurrences_fmap.
  - intros r Hr. rewrite <- occurrences_fmap. apply Hmax; [|by apply Hnan].
    apply list_elem_of_fmap. eauto.
Qed.

(** Deduplicating twice is deduplicating once. *)
Lemma drop_duplicates_idempotent c d d' :
  pandas.drop_duplicates c d = inr d' → pandas.drop_duplicates c d' = inr d'.
Proof.
  intros Hdd. pose proof (drop_duplicates_NoDup _ _ _ Hdd) as Hnd.
  destruct (drop_duplicates_keys _ _ _ Hdd) as (Hc & _ & _).
  assert (c ∈ columns d) as Hin.
  { unfold pandas.drop_duplicates in Hdd. by case_decide. }
  rewrite drop_duplicates_ok by (by rewrite Hc). f_equal.
  destruct d' as [cols rs]; simpl in *. f_equal.
  apply keep_first_NoDup; [done|]. by intros ? _ ?%elem_of_nil.
Qed.

(** C6. An article table in which no article id occurs twice is left as it
    is by the deduplication: the step returns the table, and run in place,
    as [articles_statistics] runs it, it leaves the store as it was. *)
Theorem C6_drop_duplicates_idempotent (A : DataFrame) :
  "article_id" ∈ columns A →
  NoDup (cell "article_id" <$> rows A) →
  pandas.drop_duplicates "article_id" A = inr A ∧
  ∀ (σ : store) articles,
    σ !! articles = Some A →
    inplace articles (pandas.drop_duplicates "article_id") σ = inr (tt, σ).
Proof.
  intros HA Hnd.
  assert (pandas.drop_duplicates "article_id" A = inr A) as Hdd.
  { rewrite drop_duplicates_ok by done. f_equal.
    destruct A as [cols rs]; simpl in *. f_equal.
    apply keep_first_NoDup; [done|]. by intros ? _ ?%elem_of_nil. }
  split; [done|]. intros σ articles Ha.
  rewrite (inplace_run _ _ _ _ Ha), Hdd. by rewrite list_insert_id.
Qed.

(** C10. [articles_statistics] changes one object of the store, the
    articles, which it deduplicates; the interactions object is afterwards
    the frame it was, and the numbers of distinct users and of
    interactions and the ranking are those of that frame.  On frames with
    the columns it reads, article ids that pass the check of the join
    ([stats_frames]) and an interaction with an article id, it
    returns. *)
Theorem C10_articles_statistics_keeps_interactions
    (articles interactions : nat) (σ : store) (A J : DataFrame) :
  σ !! articles = Some A →
  σ !! interactions = Some J →
  articles ≠ interactions →
  (stats_frames A J → (∃ r, r ∈ rows J ∧ cell "article_id" r ≠ VNaN) →
     ∃ st σ', articles_statistics articles interactions σ = inr (st, σ')) ∧
  (∀ st σ',
     articles_statistics articles interactions σ = inr (st, σ') →
     σ' !! interactions = Some J ∧
     (∀ l, l ≠ articles → σ' !! l = σ !! l) ∧
     (∃ A', pandas.drop_duplicates "article_id" A = inr A' ∧
            σ' !! articles = Some A') ∧
     number_of_unique_users st =
       length (pandas.unique (cell "user_id" <$> rows J)) ∧
     number_of_user_article_interactions st = length (rows J) ∧
     article_popularity st =
       pandas.value_counts (cell "article_id" <$> rows J)).
Proof.
  intros Ha Hi Hne. split.
  - intros Hf Hr.
    destruct (articles_statistics_ok _ _ _ _ _ Ha Hi Hne Hf Hr)
      as (A' & st & _ & _ & Hrun). eauto.
  - intros st σ' Hrun.
    destruct (articles_statistics_inv _ _ _ _ _ _ _ Ha Hi Hne Hrun)
      as (A' & Hdd & Hst & ->).
    pose proof (drop_duplicates_NoDup _ _ _ Hdd) as Hnd.
    destruct (article_statistics_of_inv _ _ _ Hnd Hst)
      as (_ & _ & _ & _ & _ & Hpop & _ & _ & Hu & Htot & _).
    split_and!; [|intros l Hl|exists A'; split; [done|]|done..].
    + by rewrite list_lookup_insert_ne.
    + by rewrite list_lookup_insert_ne.
    + apply list_lookup_insert_eq. by eapply lookup_lt_Some.
Qed.

(** ** The interaction statistics *)

Lemma filter_all {A} (P : A → Prop) `{∀ x, Decision (P x)} (l : list A) :
  (∀ x, x ∈ l → P x) → filter P l = l.
Proof.
  induction l as [|x l IH]; intros Hl; [done|].
  rewrite filter_cons, decide_True by (apply Hl; by left).
  f_equal. apply IH. intros y Hy. apply Hl. by right.
Qed.

Lemma keep_first_all_seen {A} `{EqDecision A} (seen l : list A) :
  (∀ x, x ∈ l → x ∈ seen) → keep_first id seen l = [].
Proof.
  induction l as [|x l IH]; intros Hl; simpl; [done|].
  rewrite decide_True by (apply Hl; by left).
  apply IH. intros y Hy. apply Hl. by right.
Qed.

Lemma unique_constant {A} `{EqDecision A} (l : list A) u :
  l ≠ [] → (∀ x, x ∈ l → x = u) → pandas.unique l = [u].
Proof.
  destruct l as [|x l]; [done|]. intros _ Hl.
  assert (x = u) as -> by (apply Hl; by left).
  unfold pandas.unique. simpl.
  f_equal.
  apply keep_first_all_seen. intros y Hy.
  rewrite (Hl y) by (by right). by left.
Qed.

(** One user: one group, counting all rows. *)
Lemma groupby_count_single (key col : string) (d : DataFrame) (u : value) :
  key ∈ columns d → col ∈ columns d →
  rows d ≠ [] → u ≠ VNaN →
  (∀ r, r ∈ rows d → cell key r = u) →
  (∀ r, r ∈ rows d → cell col r ≠ VNaN) →
  pandas.groupby_count key col d = inr [(u, length (rows d))].
Proof.
  intros Hk Hc Hne Hu Hkey Hcol. unfold pandas.groupby_count.
  rewrite !decide_True by done.
  rewrite (unique_constant (cell key <$> rows d) u).
  - rewrite filter_cons, decide_True by done. simpl.
    rewrite filter_all; [done|]. intros r Hr. split; auto.
  - by destruct (rows d).
  - intros x (r & -> & Hr)%list_elem_of_fmap. auto.
Qed.

Lemma astype_int_scalar_whole (n : nat) :
  pandas.astype_int_scalar (Qmake (Z.of_nat n) 1) = Z.of_nat n.
Proof. unfold pandas.astype_int_scalar. simpl. apply Z.quot_1_r. Qed.

(** C7. When every row of a non-empty interactions table has the same user
    id, the per-user count distribution is that user's count alone, the
    number of rows, and the median, the mean and the maximum that are
    printed, and those in the figure, are all that number. *)
Theorem C7_single_user_statistics
    (interactions : nat) (σ : store) (J : DataFrame) (u : value) :
  σ !! interactions = Some J →
  "user_id" ∈ columns J →
  "article_id" ∈ columns J →
  rows J ≠ [] →
  u ≠ VNaN →
  (∀ r, r ∈ rows J → cell "user_id" r = u) →
  (∀ r, r ∈ rows J → cell "article_id" r ≠ VNaN) →
  ∃ st,
    user_interactions_statistics interactions σ = inr (st, σ) ∧
    user_interaction_count st = [(u, length (rows J))] ∧
    median_interactions st = Some (Z.of_nat (length (rows J))) ∧
    mean_interactions st = Some (Z.of_nat (length (rows J))) ∧
    max_interactions st = Some (Z.of_nat (length (rows J))) ∧
    fig_median (histogram st) = Some (Z.of_nat (length (rows J))) ∧
    fig_mean (histogram st) = Some (Z.of_nat (length (rows J))) ∧
    fig_maximum (histogram st) = Some (Z.of_nat (length (rows J))).
Proof.
  intros Hi Hu Ha Hne Hnan Huser Hart.
  assert (pandas.median [length (rows J)]
          = Some (Qmake (Z.of_nat (length (rows J))) 1)) as Hmed by done.
  assert (pandas.mean [length (rows J)]
          = Some (Qmake (Z.of_nat (length (rows J))) 1)) as Hmean.
  { unfold pandas.mean. simpl. by rewrite Nat.add_0_r. }
  assert (pandas.max [length (rows J)]
          = Some (Qmake (Z.of_nat (length (rows J))) 1)) as Hmax by done.
  unfold user_interactions_statistics, mbind, mret, lift.
  rewrite (read_run _ _ _ _ Hi).
  rewrite (groupby_count_single _ _ _ u) by done.
  unfold user_interaction_histogram, rbind.
  cbn [fmap list_fmap snd]. rewrite Hmed, Hmean, Hmax.
  cbn [pandas.scalar_astype_int]. rewrite astype_int_scalar_whole.
  eexists. split; [done|]. by split_and!.
Qed.

(** ** The histogram *)

Lemma histogram_length (a edges : list nat) :
  length (numpy.histogram a edges) = length edges - 1.
Proof.
  induction edges as [|lo [|hi rest] IH]; [done..|].
  change (numpy.histogram a (lo :: hi :: rest)) with
    ((match rest with
      | [] => length (filter (λ x, lo ≤ x ∧ x ≤ hi) a)
      | _ => length (filter (λ x, lo ≤ x ∧ x < hi) a)
      end) :: numpy.histogram a (hi :: rest)).
  simpl length in *. rewrite IH. lia.
Qed.

Lemma StronglySorted_le_NoDup_lt (l : list nat) :
  StronglySorted (≤) l → NoDup l → StronglySorted (<) l.
Proof.
  induction 1 as [|x l Hs IH Hx]; [constructor|].
  intros [Hnx Hnd]%NoDup_cons. constructor; [by apply IH|].
  rewrite Forall_forall in *. intros y Hy.
  assert (x ≠ y) by (by intros ->). pose proof (Hx y Hy). lia.
Qed.

Lemma numpy_sort_unique (a : list nat) :
  StronglySorted (<) (numpy.sort (pandas.unique a)) ∧
  numpy.sort (pandas.unique a) ≡ₚ pandas.unique a ∧
  ∀ n, n ∈ numpy.sort (pandas.unique a) ↔ n ∈ a.
Proof.
  unfold numpy.sort.
  pose proof (merge_sort_Permutation (≤) (pandas.unique a)) as Hp.
  split_and!; [|done|].
  - apply StronglySorted_le_NoDup_lt.
    + apply StronglySorted_merge_sort; apply _.
    + rewrite Hp. apply unique_NoDup.
  - intros n. by rewrite Hp, unique_elem_of.
Qed.

(** The three statistics of a non-empty series are numbers. *)
Lemma statistics_defined (s : list nat) :
  s ≠ [] →
  ∃ median mean maximum,
    pandas.median s = Some median ∧ pandas.mean s = Some mean ∧
    pandas.max s = Some maximum.
Proof.
  intros Hs. unfold pandas.median, pandas.mean.
  assert (length s ≠ 0) as Hlen by (by destruct s).
  rewrite !decide_False by done.
  destruct s as [|x s]; [done|]. simpl pandas.max.
  destruct (Nat.even _); by eexists _, _, _.
Qed.

(** The figure of a non-empty series is drawn, with the edges and the
    bars of its first two lines. *)
Lemma user_interaction_histogram_ok (counts : list (value * nat)) :
  counts ≠ [] →
  ∃ fig, user_interaction_histogram counts = inr fig ∧
    fig_bins fig = histogram_bins counts ∧
    fig_bars fig = histogram_bars counts.
Proof.
  intros Hne.
  destruct (statistics_defined counts.*2) as (med & mean & mx & Hmed & Hmean & Hmx).
  { by destruct counts. }
  unfold user_interaction_histogram. rewrite Hmed, Hmean, Hmx. simpl. eauto.
Qed.

Lemma user_interaction_histogram_inv (counts : list (value * nat)) fig :
  user_interaction_histogram counts = inr fig →
  counts ≠ [] ∧
  fig_bins fig = histogram_bins counts ∧
  fig_bars fig = histogram_bars counts.
Proof.
  intros Hfig. assert (counts ≠ []) as Hne by (by intros ->).
  destruct (user_interaction_histogram_ok counts Hne) as (fig' & Hfig' & ?).
  rewrite Hfig in Hfig'. by simplify_eq.
Qed.

(** C8, as the code has it.  For a non-empty distribution of per-user
    counts the figure is drawn, and its bin edges are the distinct counts
    in ascending order; each two consecutive edges bound a bin, so there
    is one bin fewer than there are distinct counts (none when all the
    counts are the same), and the bins are not of fixed width. *)
Theorem C8_bin_edges_are_sorted_distinct_counts (counts : list (value * nat)) :
  counts ≠ [] →
  ∃ fig,
    user_interaction_histogram counts = inr fig ∧
    StronglySorted (<) (fig_bins fig) ∧
    (∀ n, n ∈ fig_bins fig ↔ n ∈ counts.*2) ∧
    length (fig_bins fig) = length (pandas.unique counts.*2) ∧
    length (fig_bars fig) = length (pandas.unique counts.*2) - 1.
Proof.
  intros Hne.
  destruct (user_interaction_histogram_ok counts Hne)
    as (fig & Hfig & Hbins & Hbars).
  exists fig. split; [done|]. rewrite Hbins, Hbars.
  unfold histogram_bars, histogram_bins.
  destruct (numpy_sort_unique counts.*2) as (Hs & Hp & Hin).
  split_and!; [done..| |].
  - by rewrite Hp.
  - by rewrite histogram_length, Hp.
Qed.

(** C8, as the specification has it, fails: three users with one, two and
    three interactions give the edges 1, 2, 3 and two bins, not one bin
    for each of the three counts. *)
Lemma C8_one_bin_per_count_counterexample :
  let counts := [(VInt 0, 1); (VInt 1, 2); (VInt 2, 3)] in
  counts ≠ [] ∧
  ∃ fig,
    user_interaction_histogram counts = inr fig ∧
    fig_bins fig = [1; 2; 3] ∧
    fig_bars fig = [1; 2] ∧
    length (fig_bars fig) ≠ length (pandas.unique counts.*2).
Proof.
  split; [done|]. eexists. split; [vm_compute; reflexivity|].
  split_and!; [reflexivity|reflexivity|by vm_compute].
Qed.

(** ** The scenario, evaluated *)

(** C3. The files of the scenario hold, next to the index column, the
    tables of the scenario.  On them the analysis returns, with two
    articles after the deduplication, two users, three interactions, and
    article 1 the most viewed with two views; the loop has encoded a@x as
    0 and b@x as 1, and the [user_id] column reads 0, 1, 0. *)
Theorem C3_scenario (int_of_str : string → option Z) :
  ∃ part1 part2 σ' loaded,
    pandas.drop "Unnamed: 0" scenario_articles
      = inr {| columns := ["article_id"];
               rows := [{[ "article_id" := VInt 1 ]};
                        {[ "article_id" := VInt 1 ]};
                        {[ "article_id" := VInt 2 ]}] |} ∧
    pandas.drop "Unnamed: 0" scenario_interactions
      = inr {| columns := ["article_id"; "email"];
               rows := [{[ "article_id" := VInt 1; "email" := VStr "a@x" ]};
                        {[ "article_id" := VInt 1; "email" := VStr "b@x" ]};
                        {[ "article_id" := VInt 2; "email" := VStr "a@x" ]}] |} ∧
    exploratory_analysis int_of_str scenario_articles scenario_interactions []
      = inr ((part1, part2), σ') ∧
    number_of_unique_articles part2 = 2 ∧
    number_of_unique_users part2 = 2 ∧
    number_of_user_article_interactions part2 = 3 ∧
    most_viewed_article_id part2 = VInt 1 ∧
    most_viewed_article_views part2 = 2 ∧
    cell "email" <$> rows scenario_interactions
      = [VStr "a@x"; VStr "b@x"; VStr "a@x"] ∧
    email_encoder (encode_emails (cell "email" <$> rows scenario_interactions))
      = {[ KCell (VStr "a@x") := 0; KCell (VStr "b@x") := 1 ]} ∧
    σ' !! 1 = Some loaded ∧
    cell "user_id" <$> rows loaded = [VInt 0; VInt 1; VInt 0].
Proof.
  eexists _, _, _, _. split_and!.
  - vm_compute. reflexivity.
  - vm_compute. reflexivity.
  - vm_compute. reflexivity.
  - reflexivity.
  - reflexivity.
  - reflexivity.
  - reflexivity.
  - reflexivity.
  - vm_compute. reflexivity.
  - vm_compute. reflexivity.
  - reflexivity.
  - vm_compute. reflexivity.
Qed.

(** ** The theorems at concrete inputs *)

Lemma example_stats_frames : stats_frames example_articles example_interactions.
Proof.
  split; [compute_done|compute_done|compute_done| |compute_done].
  intros c Hc Ha. simpl in *.
  rewrite !elem_of_cons, elem_of_nil in Hc, Ha.
  destruct Hc as [->|[->|[]]]; [done|].
  by destruct Ha as [?|[?|[]]].
Qed.

(** C1, as the specification has it, fails on a file in which no
    interaction has an e-mail.  The three e-mail cells are the same, one
    missing value, so the second and the third row hold an e-mail value
    that was seen before; the loop gives each of them the next unused
    integer all the same, and the ids are 0, 1, 2, not the rank of the
    value among the distinct values. *)
Lemma C1_missing_emails_counterexample :
  ∃ σ' d,
    load_data (λ _, None) scenario_articles example_log_without_emails []
      = inr ((0, 1), σ') ∧
    σ' !! 1 = Some d ∧
    cell "email" <$> rows example_log_without_emails = [VNaN; VNaN; VNaN] ∧
    pandas.unique (cell "email" <$> rows example_log_without_emails)
      = [VNaN] ∧
    cell "user_id" <$> rows d = [VInt 0; VInt 1; VInt 2] ∧
    ¬ (∀ n r, rows example_log_without_emails !! n = Some r →
         ∃ r' k,
           rows d !! n = Some r' ∧
           cell "user_id" r' = VInt (Z.of_nat k) ∧
           pandas.unique (cell "email" <$> rows example_log_without_emails)
             !! k = Some (cell "email" r)).
Proof.
  eexists _, _. split_and!.
  - vm_compute. reflexivity.
  - reflexivity.
  - reflexivity.
  - reflexivity.
  - vm_compute. reflexivity.
  - intros Hclaim.
    destruct (Hclaim 1 (example_nameless_interaction 1 1) eq_refl)
      as (r' & k & Hr' & Hk & Hu).
    injection Hr' as <-.
    assert (k = 1) as ->.
    { apply Nat2Z.inj. by injection Hk. }
    done.
Qed.

(** C2, as the specification has it, fails on the same file: the
    [user_id] column has three distinct ids, the [email] column one
    distinct cell and no e-mail string at all, and the first two rows,
    with the same e-mail cell, have different ids. *)
Lemma C2_missing_emails_counterexample :
  ∃ σ' d r1 r2 r1' r2',
    load_data (λ _, None) scenario_articles example_log_without_emails []
      = inr ((0, 1), σ') ∧
    σ' !! 1 = Some d ∧
    size (list_to_set (C:=gset value) (cell "user_id" <$> rows d)) = 3 ∧
    size (list_to_set (C:=gset value)
            (cell "email" <$> rows example_log_without_emails)) = 1 ∧
    rows example_log_without_emails !! 0 = Some r1 ∧
    rows example_log_without_emails !! 1 = Some r2 ∧
    rows d !! 0 = Some r1' ∧ rows d !! 1 = Some r2' ∧
    cell "email" r1 = cell "email" r2 ∧
    cell "user_id" r1' ≠ cell "user_id" r2'.
Proof.
  eexists _, _, _, _, _, _. split_and!.
  - vm_compute. reflexivity.
  - reflexivity.
  - by vm_compute.
  - by vm_compute.
  - reflexivity.
  - reflexivity.
  - reflexivity.
  - reflexivity.
  - reflexivity.
  - by vm_compute.
Qed.

Lemma C1_witness :
  ∃ articles interactions σ' d,
    load_data (λ _, None) scenario_articles scenario_interactions []
      = inr ((articles, interactions), σ') ∧
    σ' !! interactions = Some d ∧
    ("email" ∉ columns d) ∧ "user_id" ∈ columns d ∧
    length (rows d) = length (rows scenario_interactions) ∧
    cell "user_id" <$> rows d =
      id_cells (user_ids (encode_emails
                 (cell "email" <$> rows scenario_interactions))) ∧
    (∀ n e,
       pandas.iter_keys (cell "email" <$> rows scenario_interactions) !! n
         = Some e →
       ∃ r' k p,
         rows d !! n = Some r' ∧
         cell "user_id" r' = VInt (Z.of_nat k) ∧
         pandas.unique
           (pandas.iter_keys (cell "email" <$> rows scenario_interactions))
           !! k = Some e ∧
         pandas.iter_keys (cell "email" <$> rows scenario_interactions) !! p
           = Some e ∧
         (e ∉ take p (pandas.iter_keys
                        (cell "email" <$> rows scenario_interactions))) ∧
         k = size (list_to_set (C:=gset dict_key)
                     (take p (pandas.iter_keys
                                (cell "email" <$> rows scenario_interactions))))) ∧
    (missing_is_shared (cell "email" <$> rows scenario_interactions) →
     ∀ n r, rows scenario_interactions !! n = Some r →
       ∃ r' k p,
         rows d !! n = Some r' ∧
         cell "user_id" r' = VInt (Z.of_nat k) ∧
         pandas.unique (cell "email" <$> rows scenario_interactions) !! k
           = Some (cell "email" r) ∧
         (cell "email" <$> rows scenario_interactions) !! p
           = Some (cell "email" r) ∧
         (cell "email" r ∉ take p (cell "email" <$> rows scenario_interactions)) ∧
         k = size (list_to_set (C:=gset value)
                     (take p (cell "email" <$> rows scenario_interactions)))).
Proof.
  apply (C1_load_data_encodes_first_seen (λ _, None) scenario_articles
           scenario_interactions [] [VInt 1; VInt 1; VInt 2]);
    compute_done.
Defined.

Lemma C2_witness :
  ∃ articles interactions σ' d,
    load_data (λ _, None) scenario_articles scenario_interactions []
      = inr ((articles, interactions), σ') ∧
    σ' !! interactions = Some d ∧
    size (list_to_set (C:=gset value) (cell "user_id" <$> rows d)) =
      size (list_to_set (C:=gset dict_key)
              (pandas.iter_keys
                 (cell "email" <$> rows scenario_interactions))) ∧
    (∀ n m k1 k2 r1' r2',
       pandas.iter_keys (cell "email" <$> rows scenario_interactions) !! n
         = Some k1 →
       pandas.iter_keys (cell "email" <$> rows scenario_interactions) !! m
         = Some k2 →
       rows d !! n = Some r1' → rows d !! m = Some r2' →
       cell "user_id" r1' = cell "user_id" r2' ↔ k1 = k2) ∧
    (∀ seen rest e k,
       pandas.iter_keys (cell "email" <$> rows scenario_interactions)
         = seen ++ rest →
       email_encoder (encode_keys seen) !! e = Some k →
       email_encoder (encode_emails
                        (cell "email" <$> rows scenario_interactions)) !! e
         = Some k) ∧
    (missing_is_shared (cell "email" <$> rows scenario_interactions) →
     size (list_to_set (C:=gset value) (cell "user_id" <$> rows d)) =
       size (list_to_set (C:=gset value)
               (cell "email" <$> rows scenario_interactions)) ∧
     (∀ n m r1 r2 r1' r2',
        rows scenario_interactions !! n = Some r1 →
        rows scenario_interactions !! m = Some r2 →
        rows d !! n = Some r1' → rows d !! m = Some r2' →
        cell "user_id" r1' = cell "user_id" r2' ↔
        cell "email" r1 = cell "email" r2)).
Proof.
  apply (C2_distinct_ids_match_distinct_emails (λ _, None) scenario_articles
           scenario_interactions [] [VInt 1; VInt 1; VInt 2]);
    compute_done.
Defined.

Lemma C4_witness :
  ∃ st σ',
    articles_statistics 0 1 example_store = inr (st, σ') ∧
    example_interaction 3 1
      ∪ pandas.nulls (filter (λ c, c ≠ "article_id") (columns example_articles))
      ∈ rows (df st) ∧
    (∀ c, c ∈ columns example_articles → c ≠ "article_id" →
       pandas.nulls (filter (λ c, c ≠ "article_id") (columns example_articles))
         !! c = Some VNaN) ∧
    number_of_user_article_interactions st
      = length (rows example_interactions) ∧
    (VInt 3, length (filter (λ x, cell "article_id" x = VInt 3)
                       (rows example_interactions)))
      ∈ article_popularity st ∧
    0 < length (filter (λ x, cell "article_id" x = VInt 3)
                  (rows example_interactions)).
Proof.
  apply (C4_unmatched_interaction_is_kept 0 1 example_store example_articles
           example_interactions (example_interaction 3 1) 3);
    [reflexivity|reflexivity|lia|exact example_stats_frames|compute_done
    |reflexivity|].
  intros m Hm. simpl in Hm. rewrite !elem_of_cons, elem_of_nil in Hm.
  destruct Hm as [->|[->|[->|[]]]]; by vm_compute.
Defined.

Lemma C5_witness :
  ∃ st σ',
    articles_statistics 0 1 example_store = inr (st, σ') ∧
    head (article_popularity st) =
      Some (most_viewed_article_id st, most_viewed_article_views st) ∧
    StronglySorted count_ge (article_popularity st) ∧
    most_viewed_article_id st
      ∈ cell "article_id" <$> rows example_interactions ∧
    most_viewed_article_views st =
      length (filter (λ r, cell "article_id" r = most_viewed_article_id st)
                (rows example_interactions)) ∧
    (∀ r, r ∈ rows example_interactions →
       length (filter (λ x, cell "article_id" x = cell "article_id" r)
                 (rows example_interactions))
       ≤ most_viewed_article_views st).
Proof.
  apply (C5_most_viewed_is_maximum 0 1 example_store example_articles
           example_interactions);
    [reflexivity|reflexivity|lia|exact example_stats_frames|done|].
  intros r Hr. simpl in Hr. rewrite !elem_of_cons, elem_of_nil in Hr.
  destruct Hr as [->|[->|[->|[->|[]]]]]; by vm_compute.
Defined.

Lemma C6_witness :
  pandas.drop_duplicates "article_id" example_catalog = inr example_catalog ∧
  ∀ (σ : store) articles,
    σ !! articles = Some example_catalog →
    inplace articles (pandas.drop_duplicates "article_id") σ = inr (tt, σ).
Proof.
  apply (C6_drop_duplicates_idempotent example_catalog); compute_done.
Defined.

Lemma C7_witness :
  ∃ st,
    user_interactions_statistics 0 [example_single_user]
      = inr (st, [example_single_user]) ∧
    user_interaction_count st = [(VInt 0, length (rows example_single_user))] ∧
    median_interactions st = Some (Z.of_nat (length (rows example_single_user))) ∧
    mean_interactions st = Some (Z.of_nat (length (rows example_single_user))) ∧
    max_interactions st = Some (Z.of_nat (length (rows example_single_user))) ∧
    fig_median (histogram st)
      = Some (Z.of_nat (length (rows example_single_user))) ∧
    fig_mean (histogram st)
      = Some (Z.of_nat (length (rows example_single_user))) ∧
    fig_maximum (histogram st)
      = Some (Z.of_nat (length (rows example_single_user))).
Proof.
  apply (C7_single_user_statistics 0 [example_single_user]
           example_single_user (VInt 0));
    [reflexivity|compute_done|compute_done|done|done| |];
    intros r Hr; simpl in Hr; rewrite !elem_of_cons, elem_of_nil in Hr;
    destruct Hr as [->|[->|[->|[]]]]; by vm_compute.
Defined.

Lemma C8_witness :
  ∃ fig,
    user_interaction_histogram [(VInt 0, 1); (VInt 1, 2); (VInt 2, 3)]
      = inr fig ∧
    StronglySorted (<) (fig_bins fig) ∧
    (∀ n, n ∈ fig_bins fig ↔ n ∈ [(VInt 0, 1); (VInt 1, 2); (VInt 2, 3)].*2) ∧
    length (fig_bins fig)
      = length (pandas.unique [(VInt 0, 1); (VInt 1, 2); (VInt 2, 3)].*2) ∧
    length (fig_bars fig)
      = length (pandas.unique [(VInt 0, 1); (VInt 1, 2); (VInt 2, 3)].*2) - 1.
Proof.
  apply (C8_bin_edges_are_sorted_distinct_counts
           [(VInt 0, 1); (VInt 1, 2); (VInt 2, 3)]).
  done.
Defined.

Lemma C9_witness :
  (load_data (λ _, None) example_no_index scenario_interactions []
     = inl (KeyError "Unnamed: 0") ∧
   exploratory_analysis (λ _, None) example_no_index scenario_interactions []
     = inl (KeyError "Unnamed: 0") ∧
   (pandas.drop "Unnamed: 0" example_no_index = inl (KeyError "Unnamed: 0") ∨
    pandas.drop "Unnamed: 0" scenario_interactions
      = inl (KeyError "Unnamed: 0"))) ∧
  (is_ok (pandas.drop "Unnamed: 0" scenario_articles) = true ∧
   is_ok (pandas.drop "Unnamed: 0" scenario_interactions) = true ∧
   load_data (λ _, None) scenario_articles scenario_interactions []
     ≠ inl (KeyError "Unnamed: 0")).
Proof.
  split.
  - apply (proj1 (C9_missing_index_column_fails_at_drop (λ _, None)
                    example_no_index scenario_interactions [])).
    left. compute_done.
  - apply (proj2 (C9_missing_index_column_fails_at_drop (λ _, None)
                    scenario_articles scenario_interactions []));
      compute_done.
Defined.

Lemma C10_witness :
  ∃ st σ',
    articles_statistics 0 1 example_store = inr (st, σ') ∧
    σ' !! 1 = Some example_interactions ∧
    (∀ l, l ≠ 0 → σ' !! l = example_store !! l) ∧
    (∃ A', pandas.drop_duplicates "article_id" example_articles = inr A' ∧
           σ' !! 0 = Some A') ∧
    number_of_unique_users st =
      length (pandas.unique (cell "user_id" <$> rows example_interactions)) ∧
    number_of_user_article_interactions st
      = length (rows example_interactions) ∧
    article_popularity st =
      pandas.value_counts (cell "article_id" <$> rows example_interactions).
Proof.
  destruct (C10_articles_statistics_keeps_interactions 0 1 example_store
              example_articles example_interactions)
    as [Hreturns Hframe]; [reflexivity|reflexivity|lia|].
  destruct Hreturns as (st & σ' & Hrun).
  - exact example_stats_frames.
  - exists (example_interaction 1 0). split; [compute_done|by vm_compute].
  - exists st, σ'. split; [exact Hrun|]. exact (Hframe st σ' Hrun).
Defined.

(** * Further properties of the script *)

(** ** The encoding loop: range and decoding *)

(** The keys of a column without a string: as many distinct keys as
    distinct numbers, and one more for every missing cell. *)
Lemma iter_keys_numbers_distinct (s : Series) :
  length (pandas.unique
    (imap (λ i v, match v with VNaN => KNaN i | _ => KCell v end) s)) =
  length (pandas.unique (filter (λ v, v ≠ VNaN) s)) + occurrences VNaN s.
Proof.
  induction s as [|x s IH] using rev_ind; [done|].
  unfold occurrences in *. rewrite imap_app, !filter_app, length_app.
  simpl imap. rewrite Nat.add_0_r, unique_snoc, length_app, IH.
  destruct (decide (x = VNaN)) as [->|Hx].
  - rewrite (filter_cons_False (λ v, v ≠ VNaN)) by (by intros ?).
    rewrite (filter_cons_True (λ y, y = VNaN)) by done.
    rewrite !filter_nil, app_nil_r.
    rewrite decide_False; [simpl; lia|].
    intros (i & y & Heq & Hi)%elem_of_lookup_imap.
    destruct y; simplify_eq. apply lookup_lt_Some in Hi. lia.
  - rewrite (filter_cons_True (λ v, v ≠ VNaN)) by done.
    rewrite (filter_cons_False (λ y, y = VNaN)) by done.
    rewrite !filter_nil, unique_snoc, length_app.
    assert (match x with VNaN => KNaN (length s) | _ => KCell x end = KCell x)
      as -> by (by destruct x).
    destruct (decide (x ∈ filter (λ v, v ≠ VNaN) s)) as [Hin|Hin].
    + rewrite decide_True; [simpl; lia|].
      apply list_elem_of_filter in Hin as [_ Hin].
      apply list_elem_of_lookup in Hin as [i Hi].
      apply elem_of_lookup_imap. exists i, x. split; [by destruct x|done].
    + rewrite decide_False; [simpl; lia|].
      intros (i & y & Heq & Hi)%elem_of_lookup_imap. apply Hin.
      apply list_elem_of_filter. split; [done|].
      destruct y; simplify_eq; apply list_elem_of_lookup; eauto.
Qed.

(** X1. The ids the loop hands out are exactly the numbers below the
    counter it ends with: no id is skipped and none lies outside.  The
    counter is the number of distinct e-mails as the loop tells them
    apart.  That is the number of distinct e-mail cells where a cell is
    missing only beside a string; in a column without a string it is the
    number of distinct numbers and one more for every missing cell, each
    of which gets an id of its own. *)
Theorem X1_encode_ids_dense (emails : Series) (k : nat) :
  email_id (encode_emails emails)
    = size (list_to_set (C:=gset dict_key) (pandas.iter_keys emails)) ∧
  (k ∈ user_ids (encode_emails emails)
     ↔ k < email_id (encode_emails emails)) ∧
  (missing_is_shared emails →
     email_id (encode_emails emails)
       = size (list_to_set (C:=gset value) emails)) ∧
  (existsb is_str emails = false →
     email_id (encode_emails emails)
       = size (list_to_set (C:=gset value) (filter (λ v, v ≠ VNaN) emails))
         + occurrences VNaN emails).
Proof.
  unfold encode_emails.
  destruct (encode_keys_inv (pandas.iter_keys emails)) as [Hnext Henc Hids].
  split_and!.
  - by rewrite Hnext, unique_length.
  - rewrite Hnext. split.
    + intros (n & Hn)%list_elem_of_lookup.
      assert (is_Some (pandas.iter_keys emails !! n)) as [e He].
      { apply lookup_lt_is_Some. rewrite <- encode_keys_ids_length.
        by eapply lookup_lt_Some. }
      destruct (encode_keys_ids_lookup _ _ _ He) as (k' & Hk' & _ & Hu).
      assert (k' = k) as -> by congruence. by eapply lookup_lt_Some.
    + intros Hk. destruct (lookup_lt_is_Some_2 _ _ Hk) as [e He].
      assert (e ∈ pandas.iter_keys emails) as (n & Hn)%list_elem_of_lookup.
      { rewrite <- unique_elem_of. apply list_elem_of_lookup. eauto. }
      destruct (encode_keys_ids_lookup _ _ _ Hn) as (k' & Hk' & _ & Hu).
      assert (k' = k) as ->.
      { eapply NoDup_lookup; [apply (unique_NoDup (pandas.iter_keys emails))
                             |done..]. }
      apply list_elem_of_lookup. eauto.
  - intros Hs.
    by rewrite Hnext, (iter_keys_shared _ Hs), unique_cells, length_fmap,
      unique_length.
  - intros Hs.
    by rewrite Hnext, (iter_keys_numbers _ Hs), iter_keys_numbers_distinct,
      unique_length.
Qed.

(** X2. The ids decode: the list of distinct e-mails in order of first
    appearance, read at the ids, gives back the e-mails of the column, as
    the loop tells them apart, and the encoder has an entry for exactly
    these.  Where a cell is missing only beside a string, the distinct
    e-mail cells read at the ids give back the e-mail column. *)
Theorem X2_encode_decode (emails : Series) :
  (λ k, pandas.unique (pandas.iter_keys emails) !! k)
      <$> user_ids (encode_emails emails)
    = Some <$> pandas.iter_keys emails ∧
  dom (email_encoder (encode_emails emails))
    = list_to_set (pandas.iter_keys emails) ∧
  (missing_is_shared emails →
     (λ k, pandas.unique emails !! k) <$> user_ids (encode_emails emails)
       = Some <$> emails).
Proof.
  split_and!.
  - unfold encode_emails. apply list_eq. intros n. rewrite !list_lookup_fmap.
    destruct (pandas.iter_keys emails !! n) as [e|] eqn:He; simpl.
    + destruct (encode_keys_ids_lookup _ _ _ He) as (k & -> & _ & Hu). simpl.
      by rewrite Hu.
    + rewrite (lookup_ge_None_2 (user_ids _)); [done|].
      rewrite encode_keys_ids_length. by apply lookup_ge_None.
  - unfold encode_emails.
    destruct (encode_keys_inv (pandas.iter_keys emails)) as [_ Henc _].
    apply set_eq. intros e. rewrite elem_of_dom, elem_of_list_to_set.
    rewrite <- unique_elem_of. split.
    + intros [k Hk]. apply Henc in Hk. apply list_elem_of_lookup. eauto.
    + intros [k Hk]%list_elem_of_lookup. exists k. by apply Henc.
  - intros Hs. apply list_eq. intros n. rewrite !list_lookup_fmap.
    destruct (emails !! n) as [e|] eqn:He; simpl.
    + destruct (encode_ids_lookup _ _ _ Hs He) as (k & -> & _ & Hu). simpl.
      by rewrite Hu.
    + rewrite (lookup_ge_None_2 (user_ids _)); [done|].
      rewrite encode_ids_length. by apply lookup_ge_None.
Qed.

(** ** The loader: what it keeps and how it fails *)


Section loader_extras.
Variable int_of_str : string → option Z.



(** X4. With the index column in both files, a file of interactions
    without the [article_id] column, or with that column but without the
    [email] column, makes the loader fail with the [AttributeError] of the
    column it reads. *)
Theorem X4_load_data_missing_column (FA FI : DataFrame) (σ : store) :
  "Unnamed: 0" ∈ columns FA →
  "Unnamed: 0" ∈ columns FI →
  ("article_id" ∉ columns FI →
     load_data int_of_str FA FI σ = inl (AttributeError "article_id")) ∧
  (∀ ids, "article_id" ∈ columns FI → "email" ∉ columns FI →
     pandas.astype_int int_of_str (cell "article_id" <$> rows FI) = inr ids →
     load_data int_of_str FA FI σ = inl (AttributeError "email")).
Proof.
  intros HA HU. split.
  - intros Ha. rewrite load_data_run, drop_ok by done. unfold rbind at 1.
    unfold loaded_interactions. rewrite drop_ok by done. unfold rbind at 2.
    unfold pandas.getattr at 1. rewrite decide_False; [done|].
    cbn [columns]. rewrite elem_of_columns_drop. by intros [_ ?].
  - intros ids Ha He Hids. rewrite load_data_run, drop_ok by done.
    unfold rbind at 1. unfold loaded_interactions.
    pose proof (traverse_length _ _ _ Hids) as Hlen.
    rewrite length_fmap in Hlen.
    rewrite drop_ok by done. unfold rbind at 2.
    rewrite getattr_ok by (by apply elem_of_columns_drop).
    unfold rbind at 3. cbn [rows].
    rewrite column_delete_ne, Hids by done. unfold rbind at 3.
    rewrite setitem_ok by (cbn [rows]; rewrite length_fmap; congruence).
    unfold rbind at 2. unfold pandas.getattr at 1.
    rewrite decide_False; [done|]. cbn [columns].
    rewrite elem_of_columns_set, elem_of_columns_drop. intros [?|[_ ?]]; done.
Qed.

End loader_extras.

(** ** The interaction statistics: counts, bounds and bars *)

Lemma user_interactions_statistics_run (l : nat) (σ : store) (d : DataFrame) :
  σ !! l = Some d →
  user_interactions_statistics l σ =
  (counts ← pandas.groupby_count "user_id" "article_id" d;
   median ← pandas.scalar_astype_int (pandas.median counts.*2);
   mean ← pandas.scalar_astype_int (pandas.mean counts.*2);
   max ← pandas.scalar_astype_int (pandas.max counts.*2);
   figure ← user_interaction_histogram counts;
   inr ({| user_interaction_count := counts;
           median_interactions := Some median;
           mean_interactions := Some mean;
           max_interactions := Some max;
           histogram := figure |}, σ))%result.
Proof.
  intros Hl. unfold user_interactions_statistics, mbind, mret, lift, rbind.
  rewrite (read_run _ _ _ _ Hl).
  destruct (pandas.groupby_count _ _ d) as [|counts]; [done|].
  destruct (pandas.scalar_astype_int (pandas.median _)); [done|].
  destruct (pandas.scalar_astype_int (pandas.mean _)); [done|].
  destruct (pandas.scalar_astype_int (pandas.max _)); [done|].
  by destruct (user_interaction_histogram counts).
Qed.

(** A run that returns has counted a user; its three numbers are the
    statistics of the counts, cut to integers, and its figure is that of
    the counts. *)
Lemma user_interactions_statistics_inv (l : nat) (σ σ' : store)
    (d : DataFrame) (st : InteractionStatistics) :
  σ !! l = Some d →
  user_interactions_statistics l σ = inr (st, σ') →
  σ' = σ ∧
  pandas.groupby_count "user_id" "article_id" d
    = inr (user_interaction_count st) ∧
  user_interaction_count st ≠ [] ∧
  median_interactions st
    = pandas.astype_int_scalar <$> pandas.median (user_interaction_count st).*2 ∧
  mean_interactions st
    = pandas.astype_int_scalar <$> pandas.mean (user_interaction_count st).*2 ∧
  max_interactions st
    = pandas.astype_int_scalar <$> pandas.max (user_interaction_count st).*2 ∧
  user_interaction_histogram (user_interaction_count st) = inr (histogram st).
Proof.
  intros Hl. rewrite (user_interactions_statistics_run _ _ _ Hl).
  unfold rbind.
  destruct (pandas.groupby_count "user_id" "article_id" d)
    as [|counts] eqn:Hc; [done|].
  destruct (pandas.median counts.*2) as [med|] eqn:Hmed; [|done].
  destruct (pandas.mean counts.*2) as [avg|] eqn:Havg; [|done].
  destruct (pandas.max counts.*2) as [top|] eqn:Hmax; [|done].
  cbn [pandas.scalar_astype_int].
  destruct (user_interaction_histogram counts) as [|fig] eqn:Hfig; [done|].
  intros [= <- <-]. cbn [user_interaction_count median_interactions
    mean_interactions max_interactions histogram].
  rewrite Hmed, Havg, Hmax. split_and!; try done.
  intros ->. done.
Qed.

(** On a per-user count series without an entry the first statistic has
    no [astype]: the function raises [AttributeError]. *)
Lemma user_interactions_statistics_empty (l : nat) (σ : store) (d : DataFrame) :
  σ !! l = Some d →
  pandas.groupby_count "user_id" "article_id" d = inr [] →
  user_interactions_statistics l σ = inl (AttributeError "astype").
Proof.
  intros Hl Hc. by rewrite (user_interactions_statistics_run _ _ _ Hl), Hc.
Qed.

(** With a user counted, the function returns. *)
Lemma user_interactions_statistics_ok (l : nat) (σ : store) (d : DataFrame)
    (counts : list (value * nat)) :
  σ !! l = Some d →
  pandas.groupby_count "user_id" "article_id" d = inr counts →
  counts ≠ [] →
  ∃ st, user_interactions_statistics l σ = inr (st, σ) ∧
        user_interaction_count st = counts.
Proof.
  intros Hl Hc Hne. rewrite (user_interactions_statistics_run _ _ _ Hl), Hc.
  unfold rbind.
  destruct (statistics_defined counts.*2)
    as (med & avg & top & -> & -> & ->); [by destruct counts|].
  cbn [pandas.scalar_astype_int].
  destruct (user_interaction_histogram_ok counts Hne) as (fig & -> & _).
  eauto.
Qed.

(** Rows that pass one of two tests that exclude each other. *)
Lemma length_filter_split {A} (P Q R : A → Prop)
    `{∀ x, Decision (P x), ∀ x, Decision (Q x), ∀ x, Decision (R x)}
    (l : list A) :
  (∀ x, x ∈ l → (R x ↔ P x ∨ Q x) ∧ ¬ (P x ∧ Q x)) →
  length (filter R l) = length (filter P l) + length (filter Q l).
Proof.
  induction l as [|x l IH]; intros Hl; [done|].
  rewrite !filter_cons.
  destruct (Hl x) as [HR Hdis]; [by left|].
  assert (length (filter R l) = length (filter P l) + length (filter Q l))
    as IH' by (apply IH; intros y Hy; apply Hl; by right).
  destruct (decide (P x)), (decide (Q x)), (decide (R x)); simpl;
    try lia; tauto.
Qed.

Lemma filter_ext_elem_of {A} (P Q : A → Prop)
    `{∀ x, Decision (P x), ∀ x, Decision (Q x)} (l : list A) :
  (∀ x, x ∈ l → P x ↔ Q x) → filter P l = filter Q l.
Proof.
  induction l as [|x l IH]; intros Hl; [done|].
  rewrite !filter_cons, IH by (intros y Hy; apply Hl; by right).
  destruct (Hl x) as [? ?]; [by left|].
  destruct (decide (P x)), (decide (Q x)); tauto.
Qed.

(** The groups of distinct keys partition the rows whose key is among
    them. *)
Lemma group_counts_sum {A K} `{EqDecision K} (f : A → K) (P : A → Prop)
    `{∀ x, Decision (P x)} (ks : list K) (l : list A) :
  NoDup ks →
  sum_list ((λ k, length (filter (λ r, f r = k ∧ P r) l)) <$> ks)
    = length (filter (λ r, f r ∈ ks ∧ P r) l).
Proof.
  induction 1 as [|k ks Hk Hnd IH].
  - symmetry. rewrite filter_none; [done|].
    intros r _ [?%elem_of_nil _]. done.
  - rewrite fmap_cons.
    change (sum_list (?x :: ?xs)) with (x + sum_list xs).
    rewrite IH. symmetry. apply length_filter_split.
    intros r _. rewrite elem_of_cons. split; [tauto|].
    intros [[-> _] [? _]]. done.
Qed.

Lemma sum_list_Permutation (l k : list nat) : l ≡ₚ k → sum_list l = sum_list k.
Proof. induction 1; simpl; lia. Qed.

(** The per-key counts of [groupby(key).col.count()]. *)
Lemma groupby_count_spec (key col : string) (d : DataFrame)
    (counts : list (value * nat)) :
  pandas.groupby_count key col d = inr counts →
  NoDup counts.*1 ∧
  (∀ u n, (u, n) ∈ counts ↔
     u ∈ cell key <$> rows d ∧ u ≠ VNaN ∧
     n = length (filter (λ r, cell key r = u ∧ cell col r ≠ VNaN) (rows d))) ∧
  length counts
    = length (filter (λ k, k ≠ VNaN) (pandas.unique (cell key <$> rows d))) ∧
  sum_list counts.*2
    = length (filter (λ r, cell key r ≠ VNaN ∧ cell col r ≠ VNaN) (rows d)).
Proof.
  unfold pandas.groupby_count. repeat case_decide; try done.
  intros [= <-].
  set (keys := filter (λ k, k ≠ VNaN) (pandas.unique (cell key <$> rows d))).
  pose proof (merge_sort_Permutation value_le keys) as Hp.
  assert (NoDup keys) as Hnd.
  { apply NoDup_filter, unique_NoDup. }
  assert (∀ u, u ∈ keys ↔ u ∈ cell key <$> rows d ∧ u ≠ VNaN) as Hin.
  { intros u. unfold keys. rewrite list_elem_of_filter, unique_elem_of. tauto. }
  split_and!.
  - rewrite <- list_fmap_compose. simpl. rewrite list_fmap_id. by rewrite Hp.
  - intros u n. rewrite list_elem_of_fmap. split.
    + intros (k & [= -> ->] & Hk). rewrite Hp in Hk.
      apply Hin in Hk as [? ?]. done.
    + intros (Hu & Hn & ->). exists u. split; [done|].
      rewrite Hp. by apply Hin.
  - by rewrite length_fmap, Hp.
  - rewrite <- list_fmap_compose.
    rewrite (sum_list_Permutation _
      ((λ k, length (filter (λ r, cell key r = k ∧ cell col r ≠ VNaN)
                       (rows d))) <$> keys)) by (by rewrite Hp).
    rewrite (group_counts_sum (cell key) (λ r, cell col r ≠ VNaN)) by done.
    f_equal. apply filter_ext_elem_of. intros r Hr.
    rewrite Hin, list_elem_of_fmap. split; [tauto|].
    intros [? ?]. split_and!; eauto.
Qed.

(** X6. The per-user counts: one entry for each user id of the table that
    is not missing, no user twice; an entry counts the rows of its user
    that have an article id; and the counts add up to the number of rows
    that have both a user id and an article id.  The table is not
    changed. *)
Theorem X6_user_interaction_counts
    (l : nat) (σ σ' : store) (d : DataFrame) (st : InteractionStatistics) :
  σ !! l = Some d →
  user_interactions_statistics l σ = inr (st, σ') →
  σ' = σ ∧
  NoDup (user_interaction_count st).*1 ∧
  (∀ u n, (u, n) ∈ user_interaction_count st ↔
     u ∈ cell "user_id" <$> rows d ∧ u ≠ VNaN ∧
     n = length (filter (λ r, cell "user_id" r = u ∧
                              cell "article_id" r ≠ VNaN) (rows d))) ∧
  sum_list (user_interaction_count st).*2
    = length (filter (λ r, cell "user_id" r ≠ VNaN ∧
                           cell "article_id" r ≠ VNaN) (rows d)).
Proof.
  intros Hl Hrun.
  destruct (user_interactions_statistics_inv _ _ _ _ _ Hl Hrun)
    as (-> & Hc & _).
  destruct (groupby_count_spec _ _ _ _ Hc) as (? & ? & _ & ?). done.
Qed.

Lemma foldr_max_spec (x : nat) (s : list nat) :
  foldr Nat.max x s ∈ x :: s ∧ ∀ y, y ∈ x :: s → y ≤ foldr Nat.max x s.
Proof.
  induction s as [|z s [Hin Hle]]; simpl.
  - split; [by left|]. by intros y ->%list_elem_of_singleton.
  - split.
    + destruct (Nat.max_spec z (foldr Nat.max x s)) as [[_ ->]|[_ ->]].
      * apply elem_of_cons in Hin as [->|?]; [by left|]. by do 2 right.
      * right. by left.
    + intros y [->|[->|Hy]%elem_of_cons]%elem_of_cons.
      * pose proof (Hle x). assert (x ≤ foldr Nat.max x s) by (apply Hle; by left). lia.
      * lia.
      * assert (y ≤ foldr Nat.max x s) by (apply Hle; by right). lia.
Qed.

Lemma sum_list_le_bound (s : list nat) (M : nat) :
  (∀ y, y ∈ s → y ≤ M) → sum_list s ≤ length s * M.
Proof.
  induction s as [|x s IH]; intros Hs; simpl; [lia|].
  assert (x ≤ M) by (apply Hs; by left).
  assert (sum_list s ≤ length s * M) by (apply IH; intros; apply Hs; by right).
  lia.
Qed.

Lemma astype_int_scalar_nat (a b : nat) :
  b ≠ 0 →
  pandas.astype_int_scalar (Qmake (Z.of_nat a) (Pos.of_nat b))
    = Z.of_nat (a / b).
Proof.
  intros Hb. unfold pandas.astype_int_scalar. cbn [Qnum Qden].
  rewrite <- positive_nat_Z, Nat2Pos.id by done.
  rewrite Z.quot_div_nonneg by lia. by rewrite Nat2Z.inj_div.
Qed.

(** On a non-empty series of counts the three statistics are defined; the
    maximum is one of the counts and no count is larger, and the median
    and the mean, cut to integers, are not larger than the maximum. *)
Lemma statistics_bounds (s : list nat) :
  s ≠ [] →
  ∃ med avg top : nat,
    pandas.astype_int_scalar <$> pandas.median s = Some (Z.of_nat med) ∧
    pandas.astype_int_scalar <$> pandas.mean s = Some (Z.of_nat avg) ∧
    pandas.astype_int_scalar <$> pandas.max s = Some (Z.of_nat top) ∧
    top ∈ s ∧ (∀ y, y ∈ s → y ≤ top) ∧ med ≤ top ∧ avg ≤ top.
Proof.
  intros Hne. destruct s as [|x s'] eqn:Hs; [done|]. rewrite <- Hs.
  set (top := foldr Nat.max x s').
  destruct (foldr_max_spec x s') as [Htop Hle]. fold top in Htop, Hle.
  rewrite <- Hs in Htop, Hle.
  assert (0 < length s) as Hlen by (rewrite Hs; simpl; lia).
  pose proof (merge_sort_Permutation (≤) s) as Hp.
  assert (∀ i, i < length s → merge_sort (≤) s !!! i ≤ top) as Hsorted.
  { intros i Hi. apply Hle.
    pose proof (list_elem_of_lookup_total_2 (merge_sort (≤) s) i) as Hx.
    rewrite (Permutation_length Hp) in Hx. specialize (Hx Hi).
    revert Hx. generalize (merge_sort (≤) s !!! i). intros y Hy.
    by rewrite Hp in Hy. }
  assert (pandas.max s = Some (Qmake (Z.of_nat top) 1)) as Hmax
    by (by rewrite Hs).
  exists (if Nat.even (length s)
          then (merge_sort (≤) s !!! (length s / 2 - 1)
                + merge_sort (≤) s !!! (length s / 2)) / 2
          else merge_sort (≤) s !!! (length s / 2)),
         (sum_list s / length s), top.
  assert (length s / 2 < length s) as Hhalf
    by (apply Nat.div_lt; lia).
  split_and!; [| | |done|done| |].
  - unfold pandas.median. rewrite decide_False by lia.
    destruct (Nat.even (length s)); cbn [fmap option_fmap option_map];
      f_equal.
    + by apply (astype_int_scalar_nat _ 2).
    + rewrite (astype_int_scalar_nat _ 1) by done. by rewrite Nat.div_1_r.
  - unfold pandas.mean. rewrite decide_False by lia.
    cbn [fmap option_fmap option_map]. f_equal.
    apply astype_int_scalar_nat. lia.
  - rewrite Hmax. cbn [fmap option_fmap option_map]. f_equal.
    rewrite (astype_int_scalar_nat _ 1) by done. by rewrite Nat.div_1_r.
  - destruct (Nat.even (length s)); [|by apply Hsorted].
    assert (merge_sort (≤) s !!! (length s / 2 - 1) ≤ top)
      by (apply Hsorted; lia).
    assert (merge_sort (≤) s !!! (length s / 2) ≤ top) by (by apply Hsorted).
    apply Nat.Div0.div_le_upper_bound. lia.
  - apply Nat.Div0.div_le_upper_bound.
    pose proof (sum_list_le_bound s top Hle). lia.
Qed.

(** X7. When the table has a user with an interaction, the three numbers
    printed are defined, the maximum is the count of some user and no
    user's count is larger, and neither the median nor the mean printed
    exceeds the maximum. *)
Theorem X7_statistics_bounded_by_max
    (l : nat) (σ σ' : store) (d : DataFrame) (st : InteractionStatistics) :
  σ !! l = Some d →
  user_interactions_statistics l σ = inr (st, σ') →
  user_interaction_count st ≠ [] →
  ∃ med avg top : nat,
    median_interactions st = Some (Z.of_nat med) ∧
    mean_interactions st = Some (Z.of_nat avg) ∧
    max_interactions st = Some (Z.of_nat top) ∧
    (∃ u, (u, top) ∈ user_interaction_count st) ∧
    (∀ u n, (u, n) ∈ user_interaction_count st → n ≤ top) ∧
    med ≤ top ∧ avg ≤ top.
Proof.
  intros Hl Hrun Hne.
  destruct (user_interactions_statistics_inv _ _ _ _ _ Hl Hrun)
    as (_ & _ & _ & -> & -> & -> & _).
  destruct (statistics_bounds (user_interaction_count st).*2)
    as (med & avg & top & Hmed & Havg & Hmax & Hin & Hle & ? & ?).
  { by destruct (user_interaction_count st). }
  exists med, avg, top. split_and!; [done..| | |done|done].
  - apply list_elem_of_fmap in Hin as ([u n] & -> & Hin). eauto.
  - intros u n Hun. apply Hle. apply list_elem_of_fmap.
    exists (u, n). done.
Qed.

Lemma sorted_le_last (l : list nat) (L : nat) :
  StronglySorted (<) l → last l = Some L → ∀ x, x ∈ l → x ≤ L.
Proof.
  induction 1 as [|y l Hs IH Hy]; [done|].
  destruct l as [|z l'].
  - intros [= <-] x ->%list_elem_of_singleton. done.
  - rewrite last_cons_cons. intros HL x [->|Hx]%elem_of_cons; [|by apply IH].
    rewrite Forall_forall in Hy.
    assert (y < z) by (apply Hy; by left).
    assert (z ≤ L) by (apply IH; [done|by left]). lia.
Qed.

(** The bars of a histogram with ascending edges count, together, the
    values between the first and the last edge. *)
Lemma histogram_sum (a edges : list nat) (lo L : nat) :
  StronglySorted (<) (lo :: edges) →
  last edges = Some L →
  sum_list (numpy.histogram a (lo :: edges))
    = length (filter (λ x, lo ≤ x ∧ x ≤ L) a).
Proof.
  revert lo. induction edges as [|hi rest IH]; intros lo Hs HL; [done|].
  apply StronglySorted_inv in Hs as [Hs Hlo].
  destruct rest as [|hi2 rest'].
  - simpl in HL. injection HL as HL. subst hi.
    change (sum_list (numpy.histogram a [lo; L]))
      with (length (filter (λ x, lo ≤ x ∧ x ≤ L) a) + 0). lia.
  - rewrite last_cons_cons in HL.
    change (sum_list (numpy.histogram a (lo :: hi :: hi2 :: rest')))
      with (length (filter (λ x, lo ≤ x ∧ x < hi) a)
            + sum_list (numpy.histogram a (hi :: hi2 :: rest'))).
    rewrite (IH hi Hs HL).
    assert (lo < hi) by (by apply Forall_inv in Hlo).
    assert (hi ≤ L).
    { apply StronglySorted_inv in Hs as [Hs Hhi].
      rewrite Forall_forall in Hhi.
      assert (∀ x, x ∈ hi2 :: rest' → x ≤ L) as Hle
        by (by apply sorted_le_last).
      assert (hi < L) by (by apply Hhi, last_Some_elem_of). lia. }
    symmetry. apply length_filter_split. intros x _. lia.
Qed.

(** X8. The bars of the histogram count every user once, unless all users
    have the same number of interactions, when the single edge bounds no
    bin and the histogram has no bar at all.  The bars are those of the
    second line of [user_interaction_histogram], and of every figure it
    returns. *)
Theorem X8_histogram_bars_total (counts : list (value * nat)) :
  sum_list (histogram_bars counts)
    = (if decide (length (pandas.unique counts.*2) ≤ 1) then 0
       else length counts) ∧
  ∀ fig, user_interaction_histogram counts = inr fig →
    fig_bars fig = histogram_bars counts ∧
    sum_list (fig_bars fig)
      = if decide (length (pandas.unique counts.*2) ≤ 1) then 0
        else length counts.
Proof.
  assert (sum_list (histogram_bars counts)
          = if decide (length (pandas.unique counts.*2) ≤ 1) then 0
            else length counts) as Hsum.
  { unfold histogram_bars, histogram_bins.
    destruct (numpy_sort_unique counts.*2) as (Hs & Hp & Hin).
    rewrite <- (Permutation_length Hp).
    destruct (numpy.sort (pandas.unique counts.*2)) as [|lo [|hi rest]] eqn:He.
    - done.
    - done.
    - rewrite decide_False by (simpl; lia).
      destruct (last (hi :: rest)) as [L|] eqn:HL;
        [|by apply last_None in HL].
      rewrite (histogram_sum _ _ _ L) by done.
      rewrite filter_all; [by rewrite length_fmap|].
      intros x Hx%Hin. split.
      + apply elem_of_cons in Hx as [->|Hx]; [done|].
        apply StronglySorted_inv in Hs as [_ Hlo].
        rewrite Forall_forall in Hlo. apply Nat.lt_le_incl. by apply Hlo.
      + apply (sorted_le_last (lo :: hi :: rest)); [done| |done].
        by rewrite last_cons_cons. }
  split; [done|]. intros fig Hfig.
  destruct (user_interaction_histogram_inv _ _ Hfig) as (_ & _ & Hbars).
  by rewrite Hbars.
Qed.

(** ** The article statistics: failures, counts and the ranking *)

(** The labels of the deduplicated catalog pass the check of the join
    when the article ids of the catalog do. *)
Lemma dedup_index_keys_agree (A A' J : DataFrame) other :
  pandas.drop_duplicates "article_id" A = inr A' →
  pandas.set_index "article_id" A' = inr other →
  pandas.keys_agree (cell "article_id" <$> rows J) (pandas.ix_rows other).*1
  = pandas.keys_agree (cell "article_id" <$> rows J)
                      (cell "article_id" <$> rows A).
Proof.
  intros Hdd Hother. rewrite (set_index_keys _ _ _ Hother).
  destruct (drop_duplicates_keys _ _ _ Hdd) as (_ & -> & _).
  apply keys_agree_elements; [done|]. intros x. apply unique_elem_of.
Qed.

Lemma set_index_ok c d :
  c ∈ columns d →
  pandas.set_index c d =
  inr {| pandas.ix_columns := filter (λ c', c' ≠ c) (columns d);
         pandas.ix_rows := (λ r, (cell c r, delete c r)) <$> rows d |}.
Proof. intros ?. unfold pandas.set_index. by rewrite decide_True. Qed.

(** X9. How [articles_statistics] fails on frames it cannot work with:
    [KeyError] when the catalog or the interactions lack the article id
    column; [ValueError] when the article ids of the two frames fail the
    check of the join, as numbers against strings do, and when the two
    frames share a further column; and, with article ids that pass the
    check, [AttributeError] when the interactions lack the user id
    column. *)
Theorem X9_articles_statistics_column_errors
    (articles interactions : nat) (σ : store) (A J : DataFrame) :
  σ !! articles = Some A →
  σ !! interactions = Some J →
  articles ≠ interactions →
  ("article_id" ∉ columns A →
     articles_statistics articles interactions σ
       = inl (KeyError "article_id")) ∧
  ("article_id" ∈ columns A → "article_id" ∉ columns J →
     articles_statistics articles interactions σ
       = inl (KeyError "article_id")) ∧
  ("article_id" ∈ columns A → "article_id" ∈ columns J →
     pandas.keys_agree (cell "article_id" <$> rows J)
                       (cell "article_id" <$> rows A) = false →
     articles_statistics articles interactions σ = inl ValueError) ∧
  (∀ c, "article_id" ∈ columns A → "article_id" ∈ columns J →
     c ≠ "article_id" → c ∈ columns A → c ∈ columns J →
     articles_statistics articles interactions σ = inl ValueError) ∧
  ("article_id" ∈ columns A → "article_id" ∈ columns J →
     pandas.keys_agree (cell "article_id" <$> rows J)
                       (cell "article_id" <$> rows A) = true →
     (∀ c, c ∈ columns J → c ∈ columns A → c = "article_id") →
     "user_id" ∉ columns J →
     articles_statistics articles interactions σ
       = inl (AttributeError "user_id")).
Proof.
  intros Ha Hi Hne.
  rewrite (articles_statistics_run _ _ _ _ _ Ha Hi).
  destruct (decide (articles = interactions)) as [|_]; [done|].
  assert (∀ A', pandas.drop_duplicates "article_id" A = inr A' →
            "article_id" ∈ columns A' ∧
            ∃ other, pandas.set_index "article_id" A' = inr other ∧
              pandas.ix_columns other
                = filter (λ c, c ≠ "article_id") (columns A) ∧
              pandas.keys_agree (cell "article_id" <$> rows J)
                                (pandas.ix_rows other).*1
              = pandas.keys_agree (cell "article_id" <$> rows J)
                                  (cell "article_id" <$> rows A)) as Hprep.
  { intros A' Hdd. destruct (drop_duplicates_keys _ _ _ Hdd) as (Hc & _ & _).
    assert ("article_id" ∈ columns A') as HA'.
    { rewrite Hc. unfold pandas.drop_duplicates in Hdd. by case_decide. }
    split; [done|]. eexists. split; [by apply set_index_ok|]. split.
    - cbn [pandas.ix_columns]. by rewrite Hc.
    - eapply dedup_index_keys_agree; [done|]. by apply set_index_ok. }
  split_and!.
  - intros HA. unfold pandas.drop_duplicates. by rewrite decide_False.
  - intros HA HJ. rewrite drop_duplicates_ok by done. unfold rbind at 1.
    unfold article_statistics_of, pandas.set_index. cbn [columns].
    rewrite decide_True by done. unfold rbind at 2.
    unfold pandas.join. by rewrite decide_False.
  - intros HA HJ Hk.
    destruct (pandas.drop_duplicates "article_id" A) as [|A'] eqn:Hdd.
    { by rewrite drop_duplicates_ok in Hdd. }
    destruct (Hprep A' eq_refl) as (HA' & other & Hother & Hoc & Hkeys).
    unfold rbind at 1. unfold article_statistics_of. rewrite Hother.
    unfold rbind at 2. unfold pandas.join.
    rewrite (decide_True (P:="article_id" ∈ columns J)) by done.
    rewrite Hkeys, Hk. reflexivity.
  - intros c HA HJ Hc HcA HcJ.
    destruct (pandas.drop_duplicates "article_id" A) as [|A'] eqn:Hdd.
    { by rewrite drop_duplicates_ok in Hdd. }
    destruct (Hprep A' eq_refl) as (HA' & other & Hother & Hoc & Hkeys).
    unfold rbind at 1. unfold article_statistics_of. rewrite Hother.
    unfold rbind at 2. unfold pandas.join.
    rewrite (decide_True (P:="article_id" ∈ columns J)) by done.
    destruct (pandas.keys_agree _ (pandas.ix_rows other).*1); [|reflexivity].
    rewrite decide_True; [reflexivity|]. rewrite Hoc.
    apply Exists_exists. exists c. split; [|done].
    by apply elem_of_columns_drop.
  - intros HA HJ Hk Hdis HU.
    destruct (pandas.drop_duplicates "article_id" A) as [|A'] eqn:Hdd.
    { by rewrite drop_duplicates_ok in Hdd. }
    destruct (Hprep A' eq_refl) as (HA' & other & Hother & Hoc & Hkeys).
    unfold rbind at 1. unfold article_statistics_of. rewrite Hother.
    unfold rbind at 2. rewrite join_ok; [|done|by rewrite Hkeys|].
    + unfold rbind at 2. rewrite getattr_ok
        by (cbn [columns]; rewrite elem_of_app; by left).
      unfold rbind at 2. rewrite drop_duplicates_ok
        by (cbn [columns]; rewrite elem_of_app; by left).
      unfold rbind at 2 3. unfold pandas.getattr.
      by rewrite decide_False.
    + rewrite Hoc. intros c Hc HcJ.
      apply elem_of_columns_drop in Hc as [Hc HcA]. auto.
Qed.

(** Without an interaction that has an article id the ranking has no first
    row. *)
Lemma articles_statistics_no_ids
    (articles interactions : nat) (σ : store) (A J : DataFrame) :
  σ !! articles = Some A →
  σ !! interactions = Some J →
  articles ≠ interactions →
  stats_frames A J →
  (∀ r, r ∈ rows J → cell "article_id" r = VNaN) →
  articles_statistics articles interactions σ = inl IndexError.
Proof.
  intros Ha Hi Hne [HA HJ HU Hdis Hkeys] Hnan.
  rewrite (articles_statistics_run _ _ _ _ _ Ha Hi).
  destruct (decide (articles = interactions)) as [|_]; [done|].
  destruct (pandas.drop_duplicates "article_id" A) as [|A'] eqn:Hdd.
  { by rewrite drop_duplicates_ok in Hdd. }
  unfold rbind at 1.
  pose proof (drop_duplicates_NoDup _ _ _ Hdd) as Hnd.
  destruct (drop_duplicates_keys _ _ _ Hdd) as (Hc & _ & _).
  destruct (article_statistics_of A' J) as [e|st] eqn:Hst.
  - unfold article_statistics_of in Hst. revert Hst.
    rewrite set_index_ok by (by rewrite Hc). unfold rbind at 1.
    set (other := {| pandas.ix_columns := _; pandas.ix_rows := _ |}).
    assert (pandas.set_index "article_id" A' = inr other) as Hother.
    { apply set_index_ok. by rewrite Hc. }
    rewrite join_ok; [|done| |].
    2:{ by rewrite (dedup_index_keys_agree A A' J other). }
    2:{ cbn [pandas.ix_columns]. intros c Hcc HcJ.
        apply elem_of_columns_drop in Hcc as [Hcc HcA].
        rewrite Hc in HcA. auto. }
    unfold rbind at 1. rewrite getattr_ok
      by (cbn [columns]; rewrite elem_of_app; by left).
    unfold rbind at 1. rewrite drop_duplicates_ok
      by (cbn [columns]; rewrite elem_of_app; by left).
    unfold rbind at 1 2. rewrite getattr_ok by done. unfold rbind at 1.
    cbn [rows]. rewrite (join_rows_key_column _ _ _ Hother) by done.
    assert (pandas.value_counts (cell "article_id" <$> rows J) = []) as ->.
    { unfold pandas.value_counts.
      rewrite (filter_none (λ v, v ≠ VNaN)); [done|].
      intros v (r & -> & Hr)%list_elem_of_fmap Hv. by apply Hv, Hnan. }
    simpl. congruence.
  - exfalso.
    destruct (article_statistics_of_inv _ _ _ Hnd Hst)
      as (_ & _ & _ & _ & _ & Hpop & _ & _ & _ & _ & Hhead).
    rewrite Hpop in Hhead.
    assert ((most_viewed_article_id st, most_viewed_article_views st)
            ∈ pandas.value_counts (cell "article_id" <$> rows J)) as Hin.
    { destruct (pandas.value_counts _); simplify_eq/=. by left. }
    apply value_counts_elem_of in Hin as (Hin & Hv & _).
    apply list_elem_of_fmap in Hin as (r & Hr & Hin).
    apply Hv. rewrite Hr. by apply Hnan.
Qed.

(** X10. On frames it can work with, but without an interaction that has
    an article id (an empty table, say), [articles_statistics] fails with
    [IndexError]: the ranking has no first row. *)
Theorem X10_articles_statistics_empty
    (articles interactions : nat) (σ : store) (A J : DataFrame) :
  σ !! articles = Some A →
  σ !! interactions = Some J →
  articles ≠ interactions →
  stats_frames A J →
  (∀ r, r ∈ rows J → cell "article_id" r = VNaN) →
  articles_statistics articles interactions σ = inl IndexError.
Proof. apply articles_statistics_no_ids. Qed.


Lemma keep_first_length {A K} `{EqDecision K} (key : A → K) seen l :
  length (keep_first key seen l) ≤ length l.
Proof.
  revert seen. induction l as [|x l IH]; intros seen; simpl; [done|].
  case_decide; simpl; [etrans; [apply IH|lia]|].
  apply le_n_S, IH.
Qed.

Lemma occurrences_sum {A} `{EqDecision A} (l : list A) :
  sum_list ((λ v, occurrences v l) <$> pandas.unique l) = length l.
Proof.
  unfold occurrences.
  rewrite (list_fmap_ext _
    (λ k, length (filter (λ r, id r = k ∧ True) l)) (pandas.unique l)).
  - rewrite (group_counts_sum id (λ _, True)) by apply unique_NoDup.
    f_equal. apply filter_all. intros x Hx. split; [|done].
    by apply unique_elem_of.
  - intros _ v _. f_equal. apply list_filter_iff. intros x.
    unfold id. tauto.
Qed.

(** The ranking of a series: every cell once, every count positive, the
    counts in descending order and adding up to the number of non-missing
    cells. *)
Lemma value_counts_ranking (s : Series) :
  NoDup (pandas.value_counts s).*1 ∧
  StronglySorted count_ge (pandas.value_counts s) ∧
  (∀ v n, (v, n) ∈ pandas.value_counts s → 0 < n) ∧
  length (pandas.value_counts s)
    = length (pandas.unique (filter (λ v, v ≠ VNaN) s)) ∧
  sum_list (pandas.value_counts s).*2
    = length (filter (λ v, v ≠ VNaN) s).
Proof.
  split_and!.
  - unfold pandas.value_counts. rewrite sort_desc_Permutation.
    rewrite <- list_fmap_compose. simpl. rewrite list_fmap_id.
    apply unique_NoDup.
  - apply sort_desc_sorted.
  - intros v n (Hv & _ & ->)%value_counts_elem_of. by apply occurrences_pos.
  - unfold pandas.value_counts.
    by rewrite sort_desc_Permutation, length_fmap.
  - unfold pandas.value_counts.
    rewrite (sum_list_Permutation _ _
      (fmap_Permutation snd _ _ (sort_desc_Permutation _))).
    rewrite <- list_fmap_compose. apply occurrences_sum.
Qed.

(** X11. The counts of distinct ids that are printed: the number of
    unique articles is the number of distinct article ids of the catalog;
    the number of articles with an interaction is the number of distinct
    article ids of the interaction log, whether the catalog has them or
    not; the number of users is the number of distinct user ids; the
    number of interactions is the number of rows. *)
Theorem X11_printed_counts
    (articles interactions : nat) (σ σ' : store) (A J : DataFrame)
    (st : ArticleStatistics) :
  σ !! articles = Some A →
  σ !! interactions = Some J →
  articles ≠ interactions →
  articles_statistics articles interactions σ = inr (st, σ') →
  number_of_unique_articles st
    = size (list_to_set (C:=gset value) (cell "article_id" <$> rows A)) ∧
  number_of_unique_articles_with_interaction st
    = size (list_to_set (C:=gset value) (cell "article_id" <$> rows J)) ∧
  number_of_unique_users st
    = size (list_to_set (C:=gset value) (cell "user_id" <$> rows J)) ∧
  number_of_user_article_interactions st = length (rows J) ∧
  number_of_unique_users st ≤ number_of_user_article_interactions st ∧
  number_of_unique_articles_with_interaction st
    ≤ number_of_user_article_interactions st.
Proof.
  intros Ha Hi Hne Hrun.
  destruct (articles_statistics_inv _ _ _ _ _ _ _ Ha Hi Hne Hrun)
    as (A' & Hdd & Hst & ->).
  pose proof (drop_duplicates_NoDup _ _ _ Hdd) as Hnd.
  destruct (drop_duplicates_keys _ _ _ Hdd) as (_ & Hkeys & _).
  destruct (article_statistics_of_inv _ _ _ Hnd Hst)
    as (_ & _ & _ & _ & _ & _ & Hn & Hw & Hu & Ht & _).
  rewrite <- !unique_length.
  assert (∀ s : Series, length (pandas.unique s) ≤ length s) as Hle
    by (intros s; apply keep_first_length).
  split_and!; [|done..| |].
  - by rewrite Hn, <- (length_fmap (cell "article_id")), Hkeys.
  - rewrite Hu, Ht. etrans; [apply Hle|]. by rewrite length_fmap.
  - rewrite Hw, Ht. etrans; [apply Hle|]. by rewrite length_fmap.
Qed.

(** X12. The popularity ranking of a run: an article id of the log is in
    it once, with the number of its interaction rows, which is positive;
    the counts descend; and they add up to the number of interactions
    that have an article id. *)
Theorem X12_popularity_ranking
    (articles interactions : nat) (σ σ' : store) (A J : DataFrame)
    (st : ArticleStatistics) :
  σ !! articles = Some A →
  σ !! interactions = Some J →
  articles ≠ interactions →
  articles_statistics articles interactions σ = inr (st, σ') →
  NoDup (article_popularity st).*1 ∧
  StronglySorted count_ge (article_popularity st) ∧
  (∀ v n, (v, n) ∈ article_popularity st ↔
     v ∈ cell "article_id" <$> rows J ∧ v ≠ VNaN ∧
     n = length (filter (λ r, cell "article_id" r = v) (rows J))) ∧
  (∀ v n, (v, n) ∈ article_popularity st → 0 < n) ∧
  sum_list (article_popularity st).*2
    = length (filter (λ r, cell "article_id" r ≠ VNaN) (rows J)).
Proof.
  intros Ha Hi Hne Hrun.
  destruct (articles_statistics_inv _ _ _ _ _ _ _ Ha Hi Hne Hrun)
    as (A' & Hdd & Hst & ->).
  pose proof (drop_duplicates_NoDup _ _ _ Hdd) as Hnd.
  destruct (article_statistics_of_inv _ _ _ Hnd Hst)
    as (_ & _ & _ & _ & _ & -> & _).
  destruct (value_counts_ranking (cell "article_id" <$> rows J))
    as (Hnd' & Hs & Hpos & _ & Hsum).
  split_and!; [done|done| |done|].
  - intros v n. by rewrite value_counts_elem_of, occurrences_fmap.
  - rewrite Hsum. clear. induction (rows J) as [|r rs IH]; [done|].
    rewrite fmap_cons, !filter_cons.
    repeat case_decide; simpl; try done; by rewrite IH.
Qed.

(** ** Deduplication and the left join, row by row *)

Section keep_first_rows.
Context {A K : Type} `{EqDecision K} (key : A → K).

Lemma keep_first_sublist seen l : keep_first key seen l `sublist_of` l.
Proof.
  revert seen. induction l as [|x l IH]; intros seen; simpl; [constructor|].
  case_decide; [by apply sublist_cons|by apply sublist_skip].
Qed.

(** The rows kept are the rows no earlier row has the key of. *)
Lemma keep_first_first_occurrence l x :
  x ∈ keep_first key [] l ↔
  ∃ i, l !! i = Some x ∧ ∀ j y, j < i → l !! j = Some y → key y ≠ key x.
Proof.
  induction l as [|z l IH] using rev_ind.
  - split; [by intros ?%elem_of_nil|]. by intros (i & ? & _).
  - rewrite keep_first_snoc, elem_of_app, IH. split.
    + intros [(i & Hi & Hfirst)|Hx].
      * pose proof (lookup_lt_Some _ _ _ Hi) as Hlt.
        exists i. split; [by rewrite lookup_app_l|].
        intros j y Hj. rewrite lookup_app_l by lia. eauto.
      * case_decide as Hz; [by apply elem_of_nil in Hx|].
        apply list_elem_of_singleton in Hx as ->.
        exists (length l). split; [by rewrite list_lookup_middle|].
        intros j y Hj. rewrite lookup_app_l by done. intros Hy Heq.
        apply Hz. right. rewrite <- Heq. apply list_elem_of_fmap.
        exists y. split; [done|]. by eapply list_elem_of_lookup_2.
    + intros (i & Hi & Hfirst).
      apply lookup_snoc_Some in Hi as [[Hlt Hi]|[-> ->]].
      * left. exists i. split; [done|]. intros j y Hj Hy.
        apply (Hfirst j y Hj). by rewrite lookup_app_l by lia.
      * right. rewrite decide_False; [by left|].
        intros [?%elem_of_nil|(y & Hy & (j & Hj)%list_elem_of_lookup)
                                %list_elem_of_fmap]; [done|].
        pose proof (lookup_lt_Some _ _ _ Hj) as Hlt.
        apply (Hfirst j y Hlt); [by rewrite lookup_app_l|done].
Qed.
End keep_first_rows.

(** X13. The in-place deduplication of [articles_statistics] leaves the
    catalog with the same columns and the same article ids, each once;
    the rows that stay are those with the first occurrence of their
    article id, in their order. *)
Theorem X13_deduplication_keeps_first_rows
    (articles interactions : nat) (σ σ' : store) (A J : DataFrame)
    (st : ArticleStatistics) :
  σ !! articles = Some A →
  σ !! interactions = Some J →
  articles ≠ interactions →
  articles_statistics articles interactions σ = inr (st, σ') →
  ∃ A',
    σ' !! articles = Some A' ∧
    columns A' = columns A ∧
    rows A' `sublist_of` rows A ∧
    NoDup (cell "article_id" <$> rows A') ∧
    (∀ v, v ∈ cell "article_id" <$> rows A'
          ↔ v ∈ cell "article_id" <$> rows A) ∧
    (∀ r, r ∈ rows A' ↔
       ∃ i, rows A !! i = Some r ∧
            ∀ j m, j < i → rows A !! j = Some m →
                   cell "article_id" m ≠ cell "article_id" r).
Proof.
  intros Ha Hi Hne Hrun.
  destruct (articles_statistics_inv _ _ _ _ _ _ _ Ha Hi Hne Hrun)
    as (A' & Hdd & Hst & ->).
  pose proof (drop_duplicates_NoDup _ _ _ Hdd) as Hnd.
  destruct (drop_duplicates_keys _ _ _ Hdd) as (Hc & Hkeys & _).
  exists A'. split_and!; [|done| |done| |].
  - apply list_lookup_insert_eq. by eapply lookup_lt_Some.
  - unfold pandas.drop_duplicates in Hdd. case_decide; [|done].
    injection Hdd as <-. apply keep_first_sublist.
  - intros v. by rewrite Hkeys, unique_elem_of.
  - unfold pandas.drop_duplicates in Hdd. case_decide; [|done].
    injection Hdd as <-. apply keep_first_first_occurrence.
Qed.

Lemma bind_singletons {A B} (f : A → list B) (g : A → B) (l : list A) :
  (∀ x, x ∈ l → f x = [g x]) → l ≫= f = g <$> l.
Proof.
  induction l as [|x l IH]; intros Hl; [done|].
  rewrite bind_cons, fmap_cons, (Hl x), IH; [done| |by left].
  intros y Hy. apply Hl. by right.
Qed.

Lemma join_row_matched on (A : DataFrame) other (r m : Row) :
  pandas.set_index on A = inr other →
  NoDup (cell on <$> rows A) →
  m ∈ rows A → cell on m = cell on r →
  pandas.join_row other on r = [r ∪ delete on m].
Proof.
  intros Hother Hnd Hm Hkey.
  pose proof (set_index_rows _ _ _ Hother) as Hrows.
  pose proof (set_index_keys _ _ _ Hother) as Hkeys.
  rewrite <- Hkeys in Hnd.
  pose proof (filter_key_NoDup (pandas.ix_rows other) (cell on r) Hnd) as Hle.
  assert ((cell on m, delete on m)
          ∈ filter (λ x, x.1 = cell on r) (pandas.ix_rows other)) as Hin.
  { apply list_elem_of_filter. split; [done|].
    rewrite Hrows. apply list_elem_of_fmap. eauto. }
  unfold pandas.join_row.
  destruct (filter _ (pandas.ix_rows other)) as [|x [|y ys]];
    [by apply elem_of_nil in Hin| |simpl in Hle; lia].
  apply list_elem_of_singleton in Hin as <-. done.
Qed.

(** X14. The joined view has a row for every interaction, in order: the
    interaction with the cells of the catalog added.  The cells are those
    of the first catalog row with the interaction's article id, or all
    missing when the catalog has no such row. *)
Theorem X14_left_join_rows
    (articles interactions : nat) (σ σ' : store) (A J : DataFrame)
    (st : ArticleStatistics) :
  σ !! articles = Some A →
  σ !! interactions = Some J →
  articles ≠ interactions →
  articles_statistics articles interactions σ = inr (st, σ') →
  columns (df st)
    = columns J ++ filter (λ c, c ≠ "article_id") (columns A) ∧
  length (rows (df st)) = length (rows J) ∧
  (∀ n r, rows J !! n = Some r →
     ∃ r', rows (df st) !! n = Some r' ∧ r ⊆ r' ∧
       (((∀ m, m ∈ rows A → cell "article_id" m ≠ cell "article_id" r) ∧
         r' = r ∪ pandas.nulls
                    (filter (λ c, c ≠ "article_id") (columns A)))
        ∨
        (∃ i m, rows A !! i = Some m ∧
           cell "article_id" m = cell "article_id" r ∧
           (∀ j m', j < i → rows A !! j = Some m' →
                    cell "article_id" m' ≠ cell "article_id" m) ∧
           r' = r ∪ delete "article_id" m))).
Proof.
  intros Ha Hi Hne Hrun.
  destruct (articles_statistics_inv _ _ _ _ _ _ _ Ha Hi Hne Hrun)
    as (A' & Hdd & Hst & ->).
  pose proof (drop_duplicates_NoDup _ _ _ Hdd) as Hnd.
  destruct (drop_duplicates_keys _ _ _ Hdd) as (Hc & Hkeys & _).
  destruct (article_statistics_of_inv _ _ _ Hnd Hst)
    as (other & Hother & Hcols & Hrows & _).
  assert (pandas.ix_columns other
          = filter (λ c, c ≠ "article_id") (columns A)) as Hoc.
  { unfold pandas.set_index in Hother. case_decide; [|done].
    injection Hother as <-. simpl. by rewrite Hc. }
  assert (∀ r, r ∈ rows A' ↔
            ∃ i, rows A !! i = Some r ∧
                 ∀ j m, j < i → rows A !! j = Some m →
                        cell "article_id" m ≠ cell "article_id" r) as Hfirst.
  { unfold pandas.drop_duplicates in Hdd. case_decide; [|done].
    injection Hdd as <-. apply keep_first_first_occurrence. }
  (* the joined row of an interaction *)
  assert (∀ r, ∃ r', pandas.join_row other "article_id" r = [r'] ∧ r ⊆ r' ∧
     (((∀ m, m ∈ rows A → cell "article_id" m ≠ cell "article_id" r) ∧
       r' = r ∪ pandas.nulls (filter (λ c, c ≠ "article_id") (columns A)))
      ∨
      (∃ i m, rows A !! i = Some m ∧
         cell "article_id" m = cell "article_id" r ∧
         (∀ j m', j < i → rows A !! j = Some m' →
                  cell "article_id" m' ≠ cell "article_id" m) ∧
         r' = r ∪ delete "article_id" m))) as Hrow.
  { intros r.
    destruct (decide (cell "article_id" r ∈ cell "article_id" <$> rows A'))
      as [Hin|Hnin].
    - apply list_elem_of_fmap in Hin as (m & Hkey & Hm).
      exists (r ∪ delete "article_id" m). split_and!.
      + by apply (join_row_matched _ A').
      + apply map_union_subseteq_l.
      + right. apply Hfirst in Hm as (i & Hi' & Hf). eauto 10.
    - exists (r ∪ pandas.nulls (filter (λ c, c ≠ "article_id") (columns A))).
      split_and!.
      + rewrite <- Hoc. apply (join_row_unmatched _ A'); [done|].
        intros m Hm Heq. apply Hnin. rewrite <- Heq.
        apply list_elem_of_fmap. eauto.
      + apply map_union_subseteq_l.
      + left. split; [|done]. intros m Hm Heq. apply Hnin.
        rewrite Hkeys, unique_elem_of, <- Heq. apply list_elem_of_fmap. eauto. }
  assert (rows (df st)
          = (λ r, default r (head (pandas.join_row other "article_id" r)))
              <$> rows J) as Hmap.
  { rewrite Hrows. apply bind_singletons. intros r _.
    destruct (Hrow r) as (r' & -> & _). done. }
  split_and!.
  - by rewrite Hcols, Hoc.
  - by rewrite Hmap, length_fmap.
  - intros n r Hn. destruct (Hrow r) as (r' & Hr' & Hsub & Hcase).
    exists r'. split_and!; [|done..].
    rewrite Hmap, list_lookup_fmap, Hn. simpl. by rewrite Hr'.
Qed.

(** ** The whole analysis *)

(** As many distinct user ids in the loaded table as the loop has met
    distinct e-mails. *)
Lemma id_cells_distinct (emails : Series) :
  length (pandas.unique (id_cells (user_ids (encode_emails emails))))
    = length (pandas.unique (pandas.iter_keys emails)).
Proof.
  unfold id_cells, encode_emails.
  rewrite unique_fmap_inj by (intros x y _ _ [= ?]; lia).
  by rewrite length_fmap, encode_keys_ids_unique, length_fmap.
Qed.

Lemma id_cells_not_missing (ids : list nat) v : v ∈ id_cells ids → v ≠ VNaN.
Proof. by intros (n & -> & _)%list_elem_of_fmap. Qed.

Section pipeline.
Variable int_of_str : string → option Z.

(** X15. On two files with the columns the script reads, article ids of
    the interactions that read as integers and pass the check of the join
    against the article ids of the catalog, at least one interaction, and
    no column in both files but the index, the article id and the e-mail,
    the analysis returns, and what it reports are numbers of the files:
    as many users as the loop over the e-mail column tells e-mails apart,
    which is the number of distinct e-mail cells where a cell is missing
    only beside a string; as many interactions as the file has rows; as
    many articles as the article file has distinct ids; the ranking is
    that of the article ids read from the interaction file; and the
    per-user counts, one per user, add up to the number of
    interactions. *)
Theorem X15_analysis_reports_the_files
    (FA FI : DataFrame) (σ : store) (ids : Series) :
  "Unnamed: 0" ∈ columns FA →
  "Unnamed: 0" ∈ columns FI →
  "article_id" ∈ columns FA →
  "article_id" ∈ columns FI →
  "email" ∈ columns FI →
  "user_id" ∉ columns FA →
  (∀ c, c ∈ columns FI → c ∈ columns FA →
        c = "article_id" ∨ c = "Unnamed: 0" ∨ c = "email") →
  pandas.astype_int int_of_str (cell "article_id" <$> rows FI) = inr ids →
  pandas.keys_agree ids (cell "article_id" <$> rows FA) = true →
  rows FI ≠ [] →
  ∃ part1 part2 σ',
    exploratory_analysis int_of_str FA FI σ = inr ((part1, part2), σ') ∧
    number_of_unique_users part2
      = size (list_to_set (C:=gset dict_key)
                (pandas.iter_keys (cell "email" <$> rows FI))) ∧
    (missing_is_shared (cell "email" <$> rows FI) →
       number_of_unique_users part2
         = size (list_to_set (C:=gset value) (cell "email" <$> rows FI))) ∧
    number_of_user_article_interactions part2 = length (rows FI) ∧
    number_of_unique_articles part2
      = size (list_to_set (C:=gset value) (cell "article_id" <$> rows FA)) ∧
    number_of_unique_articles_with_interaction part2
      = size (list_to_set (C:=gset value) ids) ∧
    article_popularity part2 = pandas.value_counts ids ∧
    length (user_interaction_count part1) = number_of_unique_users part2 ∧
    sum_list (user_interaction_count part1).*2 = length (rows FI).
Proof.
  intros HUA HUI HaA HaI He HuA Hshare Hids Hagree Hne.
  destruct (load_data_ok int_of_str FA FI σ ids HUA HUI HaI He Hids)
    as (d & Hrun & Hd & Hcols & Huid & Haid & Hlen).
  set (σ1 := σ ++ [loaded_articles FA; d]) in *.
  assert (σ1 !! length σ = Some (loaded_articles FA)) as HA.
  { unfold σ1. by rewrite lookup_app_r, Nat.sub_diag by lia. }
  assert (∀ r, r ∈ rows d → cell "user_id" r ≠ VNaN) as Hu_ok.
  { intros r Hr. apply (id_cells_not_missing
      (user_ids (encode_emails (cell "email" <$> rows FI)))).
    rewrite <- Huid. apply list_elem_of_fmap. eauto. }
  assert (∀ r, r ∈ rows d → cell "article_id" r ≠ VNaN) as Ha_ok.
  { intros r Hr.
    pose proof (astype_int_ints _ _ _ Hids) as Hint.
    rewrite Forall_forall in Hint.
    destruct (Hint (cell "article_id" r)) as [z ->]; [|done].
    rewrite <- Haid. apply list_elem_of_fmap. eauto. }
  assert (stats_frames (loaded_articles FA) d) as Hframes.
  { split.
    - by apply elem_of_columns_drop.
    - apply Hcols. by right.
    - apply Hcols. by left.
    - intros c [->|(Hc1 & Hc2 & Hc3)]%Hcols [_ HcA]%elem_of_columns_drop;
        [done|].
      destruct (Hshare c Hc3 HcA) as [?|[?|?]]; done.
    - rewrite Haid. unfold loaded_articles. cbn [rows].
      by rewrite (column_delete_ne "article_id" "Unnamed: 0"). }
  assert (∃ r, r ∈ rows d ∧ cell "article_id" r ≠ VNaN) as Hrow.
  { destruct (rows d) as [|r rs] eqn:Hrs.
    - destruct (rows FI); [done|simpl in Hlen; lia].
    - exists r. split; [by left|]. apply Ha_ok. by left. }
  destruct (articles_statistics_ok (length σ) (S (length σ)) σ1
              (loaded_articles FA) d HA Hd ltac:(lia) Hframes Hrow)
    as (A' & st & Hdd & Hst & Hrun2).
  destruct (pandas.groupby_count "user_id" "article_id" d)
    as [e|counts] eqn:Hc.
  { unfold pandas.groupby_count in Hc.
    rewrite !decide_True in Hc; [done|apply Hframes..]. }
  destruct (groupby_count_spec _ _ _ _ Hc) as (_ & _ & Hcl & Hsum).
  rewrite filter_all in Hsum by (intros r Hr; split; auto).
  assert (counts ≠ []) as Hcne.
  { intros ->. simpl in Hsum. destruct (rows FI); [done|].
    simpl in Hlen. lia. }
  destruct (user_interactions_statistics_ok _ _ _ _ Hd Hc Hcne)
    as (part1 & Hrun1 & Hcounts).
  unfold exploratory_analysis, mbind. rewrite Hrun. cbn [fst snd].
  rewrite Hrun1, Hrun2.
  exists part1, st, (<[length σ:=A']> σ1). split; [reflexivity|].
  rewrite Hcounts.
  pose proof (drop_duplicates_NoDup _ _ _ Hdd) as Hnd.
  destruct (drop_duplicates_keys _ _ _ Hdd) as (_ & Hkeys & _).
  destruct (article_statistics_of_inv _ _ _ Hnd Hst)
    as (_ & _ & _ & _ & _ & Hpop & Hn & Hw & Hu & Ht & _).
  assert (number_of_unique_users st
          = length (pandas.unique
                      (pandas.iter_keys (cell "email" <$> rows FI)))) as Husers.
  { by rewrite Hu, Huid, id_cells_distinct. }
  rewrite <- !unique_length. split_and!.
  - done.
  - intros Hs.
    by rewrite Husers, (iter_keys_shared _ Hs), unique_cells, length_fmap.
  - by rewrite Ht.
  - rewrite Hn, <- (length_fmap (cell "article_id")), Hkeys.
    unfold loaded_articles. cbn [rows].
    by rewrite (column_delete_ne "article_id" "Unnamed: 0").
  - by rewrite Hw, Haid.
  - by rewrite Hpop, Haid.
  - rewrite Hcl, filter_all.
    + by rewrite Hu.
    + intros v (r & -> & Hr)%unique_elem_of%list_elem_of_fmap. by apply Hu_ok.
  - by rewrite Hsum.
Qed.

(** X16. An interaction file with its columns but without a row gets
    through the loader; the interaction statistics then count no user,
    the median of no count is not a number with [astype], and the
    analysis fails with [AttributeError] in
    [user_interactions_statistics], before [articles_statistics] is
    called. *)
Theorem X16_analysis_of_empty_log (FA FI : DataFrame) (σ : store) :
  "Unnamed: 0" ∈ columns FA →
  "Unnamed: 0" ∈ columns FI →
  "article_id" ∈ columns FI →
  "email" ∈ columns FI →
  rows FI = [] →
  (∃ vars σ1 d,
     load_data int_of_str FA FI σ = inr (vars, σ1) ∧
     σ1 !! vars.2 = Some d ∧
     pandas.groupby_count "user_id" "article_id" d = inr [] ∧
     user_interactions_statistics vars.2 σ1
       = inl (AttributeError "astype")) ∧
  exploratory_analysis int_of_str FA FI σ = inl (AttributeError "astype").
Proof.
  intros HUA HUI HaI He Hempty.
  assert (pandas.astype_int int_of_str (cell "article_id" <$> rows FI)
          = inr []) as Hids by (by rewrite Hempty).
  destruct (load_data_ok int_of_str FA FI σ [] HUA HUI HaI He Hids)
    as (d & Hrun & Hd & Hcols & Huid & Haid & Hlen).
  set (σ1 := σ ++ [loaded_articles FA; d]) in *.
  assert (rows d = []) as Hrows.
  { rewrite Hempty in Hlen. by destruct (rows d). }
  assert (pandas.groupby_count "user_id" "article_id" d = inr []) as Hc.
  { unfold pandas.groupby_count.
    rewrite !decide_True by (apply Hcols; auto). by rewrite Hrows. }
  pose proof (user_interactions_statistics_empty _ _ _ Hd Hc) as Hfail.
  split.
  - by exists (length σ, S (length σ)), σ1, d.
  - unfold exploratory_analysis, mbind. rewrite Hrun. cbn [fst snd].
    by rewrite Hfail.
Qed.
End pipeline.

(** ** The further properties at concrete inputs *)

Lemma scenario_shared_columns c :
  c ∈ columns scenario_interactions → c ∈ columns scenario_articles →
  c = "article_id" ∨ c = "Unnamed: 0" ∨ c = "email".
Proof.
  simpl. rewrite !elem_of_cons, elem_of_nil. intros [->|[->|[->|[]]]] _; auto.
Qed.

Lemma example_no_interactions_frames :
  stats_frames example_articles example_no_interactions.
Proof.
  split; [compute_done|compute_done|compute_done| |compute_done].
  intros c Hc Ha. simpl in *.
  rewrite !elem_of_cons, elem_of_nil in Hc, Ha.
  destruct Hc as [->|[->|[]]]; [done|].
  by destruct Ha as [?|[?|[]]].
Qed.

Lemma example_store_statistics :
  ∃ st σ', articles_statistics 0 1 example_store = inr (st, σ').
Proof.
  destruct (articles_statistics_ok 0 1 example_store example_articles
              example_interactions) as (A' & st & _ & _ & Hrun);
    [reflexivity|reflexivity|lia|exact example_stats_frames| |eauto].
  exists (example_interaction 1 0). split; [compute_done|by vm_compute].
Qed.

Lemma X1_witness :
  email_id (encode_emails [VNaN; VNaN; VNaN]) = 3 ∧
  email_id (encode_emails [VStr "a@x"; VNaN; VStr "a@x"; VNaN]) = 2.
Proof.
  split.
  - rewrite (proj2 (proj2 (proj2 (X1_encode_ids_dense [VNaN; VNaN; VNaN] 0))));
      compute_done.
  - rewrite (proj1 (proj2 (proj2
               (X1_encode_ids_dense [VStr "a@x"; VNaN; VStr "a@x"; VNaN] 0))));
      compute_done.
Defined.

Lemma X2_witness :
  (λ k, pandas.unique [VStr "a@x"; VNaN; VStr "a@x"] !! k)
      <$> user_ids (encode_emails [VStr "a@x"; VNaN; VStr "a@x"])
    = Some <$> [VStr "a@x"; VNaN; VStr "a@x"].
Proof.
  apply (proj2 (proj2 (X2_encode_decode [VStr "a@x"; VNaN; VStr "a@x"]))).
  compute_done.
Defined.


Lemma X4_witness :
  load_data (λ _, None) scenario_articles example_log_without_article_id []
    = inl (AttributeError "article_id") ∧
  load_data (λ _, None) scenario_articles example_log_without_email []
    = inl (AttributeError "email").
Proof.
  split.
  - apply (proj1 (X4_load_data_missing_column (λ _, None) scenario_articles
                    example_log_without_article_id []
                    ltac:(compute_done) ltac:(compute_done))).
    compute_done.
  - apply (proj2 (X4_load_data_missing_column (λ _, None) scenario_articles
                    example_log_without_email []
                    ltac:(compute_done) ltac:(compute_done)) [VInt 1]);
      compute_done.
Defined.


Lemma X6_witness :
  ∃ st,
    user_interactions_statistics 1 example_store = inr (st, example_store) ∧
    NoDup (user_interaction_count st).*1 ∧
    sum_list (user_interaction_count st).*2
      = length (filter (λ r, cell "user_id" r ≠ VNaN ∧
                             cell "article_id" r ≠ VNaN)
                  (rows example_interactions)).
Proof.
  assert (∃ st, user_interactions_statistics 1 example_store
                = inr (st, example_store)) as [st Hrun]
    by (eexists; vm_compute; reflexivity).
  destruct (X6_user_interaction_counts 1 example_store example_store
              example_interactions st eq_refl Hrun) as (_ & Hnd & _ & Hsum).
  exists st. split_and!; assumption.
Defined.

Lemma X7_witness :
  ∃ st (med avg top : nat),
    user_interactions_statistics 1 example_store = inr (st, example_store) ∧
    median_interactions st = Some (Z.of_nat med) ∧
    mean_interactions st = Some (Z.of_nat avg) ∧
    max_interactions st = Some (Z.of_nat top) ∧
    med ≤ top ∧ avg ≤ top.
Proof.
  assert (∃ st, user_interactions_statistics 1 example_store
                = inr (st, example_store) ∧
                user_interaction_count st = [(VInt 0, 2); (VInt 1, 2)])
    as (st & Hrun & Hc)
    by (eexists; split; vm_compute; reflexivity).
  destruct (X7_statistics_bounded_by_max 1 example_store example_store
              example_interactions st eq_refl Hrun)
    as (med & avg & top & ? & ? & ? & _ & _ & ? & ?).
  { by rewrite Hc. }
  exists st, med, avg, top. split_and!; assumption.
Defined.

Lemma X8_witness :
  ∃ fig,
    user_interaction_histogram [(VInt 0, 1); (VInt 1, 2); (VInt 2, 2)]
      = inr fig ∧
    fig_bars fig = histogram_bars [(VInt 0, 1); (VInt 1, 2); (VInt 2, 2)] ∧
    sum_list (fig_bars fig) = 3.
Proof.
  assert (∃ fig, user_interaction_histogram
                   [(VInt 0, 1); (VInt 1, 2); (VInt 2, 2)] = inr fig)
    as [fig Hfig] by (eexists; vm_compute; reflexivity).
  destruct (proj2 (X8_histogram_bars_total
                     [(VInt 0, 1); (VInt 1, 2); (VInt 2, 2)]) fig Hfig)
    as [Hbars Hsum].
  exists fig. split_and!; assumption.
Defined.

Lemma X9_witness :
  articles_statistics 0 1 [example_catalog_without_id; example_interactions]
    = inl (KeyError "article_id") ∧
  articles_statistics 0 1 [example_articles; example_users_only]
    = inl (KeyError "article_id") ∧
  articles_statistics 0 1 [example_string_catalog; example_interactions]
    = inl ValueError ∧
  articles_statistics 0 1 [example_articles; example_titled_interactions]
    = inl ValueError ∧
  articles_statistics 0 1 [example_articles; example_no_index]
    = inl (AttributeError "user_id").
Proof.
  split_and!.
  - apply (proj1 (X9_articles_statistics_column_errors 0 1
             [example_catalog_without_id; example_interactions]
             example_catalog_without_id example_interactions
             eq_refl eq_refl ltac:(lia))).
    compute_done.
  - apply (proj1 (proj2 (X9_articles_statistics_column_errors 0 1
             [example_articles; example_users_only]
             example_articles example_users_only
             eq_refl eq_refl ltac:(lia)))); compute_done.
  - apply (proj1 (proj2 (proj2 (X9_articles_statistics_column_errors 0 1
             [example_string_catalog; example_interactions]
             example_string_catalog example_interactions
             eq_refl eq_refl ltac:(lia))))); compute_done.
  - apply (proj1 (proj2 (proj2 (proj2
             (X9_articles_statistics_column_errors 0 1
               [example_articles; example_titled_interactions]
               example_articles example_titled_interactions
               eq_refl eq_refl ltac:(lia))))) "doc_full_name"); compute_done.
  - apply (proj2 (proj2 (proj2 (proj2
             (X9_articles_statistics_column_errors 0 1
               [example_articles; example_no_index]
               example_articles example_no_index
               eq_refl eq_refl ltac:(lia))))));
      [compute_done|compute_done|compute_done| |compute_done].
    intros c Hc Ha. simpl in *. rewrite !elem_of_cons, elem_of_nil in Hc.
    by destruct Hc as [->|[]].
Defined.

Lemma X10_witness :
  articles_statistics 0 1 [example_articles; example_no_interactions]
    = inl IndexError.
Proof.
  apply (X10_articles_statistics_empty 0 1
           [example_articles; example_no_interactions]
           example_articles example_no_interactions);
    [reflexivity|reflexivity|lia|exact example_no_interactions_frames|].
  intros r Hr. by apply elem_of_nil in Hr.
Defined.

Lemma X11_witness :
  ∃ st σ',
    articles_statistics 0 1 example_store = inr (st, σ') ∧
    number_of_unique_articles st
      = size (list_to_set (C:=gset value)
                (cell "article_id" <$> rows example_articles)) ∧
    number_of_unique_articles_with_interaction st
      = size (list_to_set (C:=gset value)
                (cell "article_id" <$> rows example_interactions)) ∧
    number_of_unique_users st
      = size (list_to_set (C:=gset value)
                (cell "user_id" <$> rows example_interactions)) ∧
    number_of_user_article_interactions st
      = length (rows example_interactions).
Proof.
  destruct example_store_statistics as (st & σ' & Hrun).
  destruct (X11_printed_counts 0 1 example_store σ' example_articles
              example_interactions st eq_refl eq_refl ltac:(lia) Hrun)
    as (? & ? & ? & ? & _).
  exists st, σ'. split_and!; assumption.
Defined.

Lemma X12_witness :
  ∃ st σ',
    articles_statistics 0 1 example_store = inr (st, σ') ∧
    NoDup (article_popularity st).*1 ∧
    StronglySorted count_ge (article_popularity st) ∧
    sum_list (article_popularity st).*2
      = length (filter (λ r, cell "article_id" r ≠ VNaN)
                  (rows example_interactions)).
Proof.
  destruct example_store_statistics as (st & σ' & Hrun).
  destruct (X12_popularity_ranking 0 1 example_store σ' example_articles
              example_interactions st eq_refl eq_refl ltac:(lia) Hrun)
    as (? & ? & _ & _ & ?).
  exists st, σ'. split_and!; assumption.
Defined.

Lemma X13_witness :
  ∃ st σ' A',
    articles_statistics 0 1 example_store = inr (st, σ') ∧
    σ' !! 0 = Some A' ∧
    columns A' = columns example_articles ∧
    rows A' `sublist_of` rows example_articles ∧
    NoDup (cell "article_id" <$> rows A').
Proof.
  destruct example_store_statistics as (st & σ' & Hrun).
  destruct (X13_deduplication_keeps_first_rows 0 1 example_store σ'
              example_articles example_interactions st
              eq_refl eq_refl ltac:(lia) Hrun)
    as (A' & ? & ? & ? & ? & _).
  exists st, σ', A'. split_and!; assumption.
Defined.

Lemma X14_witness :
  ∃ st σ',
    articles_statistics 0 1 example_store = inr (st, σ') ∧
    columns (df st)
      = columns example_interactions
        ++ filter (λ c, c ≠ "article_id") (columns example_articles) ∧
    length (rows (df st)) = length (rows example_interactions).
Proof.
  destruct example_store_statistics as (st & σ' & Hrun).
  destruct (X14_left_join_rows 0 1 example_store σ' example_articles
              example_interactions st eq_refl eq_refl ltac:(lia) Hrun)
    as (? & ? & _).
  exists st, σ'. split_and!; assumption.
Defined.

Lemma X15_witness :
  ∃ part1 part2 σ',
    exploratory_analysis (λ _, None) scenario_articles scenario_interactions []
      = inr ((part1, part2), σ') ∧
    number_of_unique_users part2
      = size (list_to_set (C:=gset dict_key)
                (pandas.iter_keys
                   (cell "email" <$> rows scenario_interactions))) ∧
    number_of_unique_users part2
      = size (list_to_set (C:=gset value)
                (cell "email" <$> rows scenario_interactions)) ∧
    number_of_user_article_interactions part2
      = length (rows scenario_interactions) ∧
    sum_list (user_interaction_count part1).*2
      = length (rows scenario_interactions).
Proof.
  destruct (X15_analysis_reports_the_files (λ _, None) scenario_articles
              scenario_interactions [] [VInt 1; VInt 1; VInt 2])
    as (part1 & part2 & σ' & ? & ? & Hshared & ? & _ & _ & _ & _ & ?);
    [compute_done|compute_done|compute_done|compute_done|compute_done
    |compute_done|exact scenario_shared_columns|compute_done|compute_done
    |done|].
  assert (number_of_unique_users part2
          = size (list_to_set (C:=gset value)
                    (cell "email" <$> rows scenario_interactions)))
    by (apply Hshared; compute_done).
  exists part1, part2, σ'. split_and!; assumption.
Defined.

Lemma X16_witness :
  exploratory_analysis (λ _, None) scenario_articles example_empty_log []
    = inl (AttributeError "astype").
Proof.
  apply (X16_analysis_of_empty_log (λ _, None) scenario_articles
           example_empty_log []);
    [compute_done..|reflexivity].
Defined.
